(** * ExtNum: the extended numeric algebra of [ext_num.py]

    A shallow embedding of the [ExtNum] class (kinds REAL, COMPLEX, OMEGA and
    BOTTOM over Python numbers) together with the part of the Python numeric
    tower its methods rely on: [int], [fractions.Fraction], [float] (IEEE
    binary64, here Rocq's primitive floats) and [complex] (a pair of doubles).
    Exceptions are values of [exn]; a method that can raise returns a
    [result]. *)

From Stdlib Require Import ZArith QArith Qabs Qreduction Floats Bool List String Ascii Lia.
From Stdlib Require Import DecimalString DecimalPos Qpower.
Import ListNotations.

Local Open Scope Z_scope.

(** ** Exceptions and results *)

Inductive exn : Type :=
| ValueError
| TypeError
| ZeroDivisionError
| OverflowError
| KeyError
| AttributeError.

Inductive result (A : Type) : Type :=
| Ok (a : A)
| Err (e : exn).
Arguments Ok {A} a.
Arguments Err {A} e.

Definition bind {A B : Type} (m : result A) (f : A -> result B) : result B :=
  match m with
  | Ok a => f a
  | Err e => Err e
  end.

Definition fmap {A B : Type} (f : A -> B) (m : result A) : result B :=
  bind m (fun a => Ok (f a)).

Declare Scope py_scope.
Delimit Scope py_scope with py.
Notation "x <- m ;; k" := (bind m (fun x => k))
  (at level 61, m at next level, right associativity) : py_scope.
Notation "' pat <- m ;; k" := (bind m (fun x => match x with pat => k end))
  (at level 61, pat pattern, m at next level, right associativity) : py_scope.
Local Open Scope py_scope.

(** ** IEEE binary64 and exact rationals *)

Module F64.

Definition prec : Z := 53.
Definition emax : Z := 1024.

(** The double nearest to [n/d] (ties to even): what [int / int] and
    [Fraction.__float__] compute.  An infinite result stands for overflow. *)
Definition round_ratio (s : bool) (n d : positive) : spec_float :=
  let '(m, e, l) := SFdiv_core_binary prec emax (Zpos n) 0 (Zpos d) 0 in
  binary_round_aux prec emax s m e l.

Definition nearest (q : Q) : spec_float :=
  match Qnum q with
  | Z0 => S754_zero false
  | Zpos n => round_ratio false n (Qden q)
  | Zneg n => round_ratio true n (Qden q)
  end.

(** [float(x)] for an [int] or a [Fraction]: OverflowError when the value
    is out of range. *)
Definition of_Q (q : Q) : result float :=
  match nearest q with
  | S754_infinity _ => Err OverflowError
  | sf => Ok (SF2Prim sf)
  end.

(** The exact value of a finite double, [float.as_integer_ratio]. *)
Definition exact (s : bool) (m : positive) (e : Z) : Q :=
  let n := if s then Zneg m else Zpos m in
  match e with
  | Zneg k => Qred (Qmake n (2 ^ k)%positive)
  | _ => Qmake (n * 2 ^ e) 1
  end.

(** [Fraction(f)]: OverflowError on an infinity, ValueError on a NaN. *)
Definition to_Q (f : float) : result Q :=
  match Prim2SF f with
  | S754_zero _ => Ok (0 # 1)
  | S754_finite s m e => Ok (exact s m e)
  | S754_infinity _ => Err OverflowError
  | S754_nan => Err ValueError
  end.

Definition ge (a b : float) : bool := PrimFloat.leb b a.
Definition gt (a b : float) : bool := PrimFloat.ltb b a.

(** [copysign(1.0, f) == 1.0] *)
Definition positive_sign (f : float) : bool :=
  match Prim2SF f with
  | S754_zero s | S754_infinity s | S754_finite s _ _ => negb s
  | S754_nan => true
  end.

End F64.

(** ** Python values that reach an [ExtNum] *)

Inductive pyval : Type :=
| PInt (z : Z)                (* int (and bool) *)
| PFrac (q : Q)               (* fractions.Fraction, kept in lowest terms *)
| PFloat (f : float)          (* float *)
| PComplex (re im : float)    (* complex *)
| PNone.                      (* None, and any operand that is no number *)

(** [isinstance(x, numbers.Real)] *)
Definition is_Real (v : pyval) : bool :=
  match v with
  | PInt _ | PFrac _ | PFloat _ => true
  | _ => false
  end.

(** [isinstance(x, numbers.Complex)] *)
Definition is_Complex (v : pyval) : bool :=
  match v with
  | PInt _ | PFrac _ | PFloat _ | PComplex _ _ => true
  | PNone => false
  end.

Definition is_complex (v : pyval) : bool :=
  match v with
  | PComplex _ _ => true
  | _ => false
  end.

Definition is_float (v : pyval) : bool :=
  match v with
  | PFloat _ => true
  | _ => false
  end.

Definition is_int (v : pyval) : bool :=
  match v with
  | PInt _ => true
  | _ => false
  end.

(** ** Number literals: [str], [Fraction(str)] and [float(str)]

    Strings are ASCII; [\s] and [\d] are read over ASCII only.  Converting
    between [int] and [str] is subject to the interpreter's limit on the
    number of digits, 4300 unless it is reconfigured
    ([sys.get_int_max_str_digits()]): beyond it [str(n)] and [int(s)] raise
    ValueError. *)

Module Lit.

Local Open Scope char_scope.
Local Open Scope Z_scope.

(** White space for [float]: the blank and the controls 9 to 13. *)
Definition is_space (c : ascii) : bool :=
  let n := nat_of_ascii c in
  Nat.eqb n 32 || (Nat.leb 9 n && Nat.leb n 13).

(** White space for [\s] in the pattern of [Fraction]: the separators 28
    to 31 as well. *)
Definition is_re_space (c : ascii) : bool :=
  let n := nat_of_ascii c in
  is_space c || (Nat.leb 28 n && Nat.leb n 31).

Definition digit_val (c : ascii) : option Z :=
  let n := Z.of_nat (nat_of_ascii c) in
  if (48 <=? n) && (n <=? 57) then Some (n - 48) else None.

Definition starts_with_digit (l : list ascii) : bool :=
  match l with
  | c :: _ => match digit_val c with Some _ => true | None => false end
  | [] => false
  end.

Fixpoint skip_spaces (l : list ascii) : list ascii :=
  match l with
  | c :: r => if is_space c then skip_spaces r else l
  | [] => []
  end.

Definition all_space (l : list ascii) : bool := forallb is_space l.

Fixpoint skip_re_spaces (l : list ascii) : list ascii :=
  match l with
  | c :: r => if is_re_space c then skip_re_spaces r else l
  | [] => []
  end.

Definition all_re_space (l : list ascii) : bool := forallb is_re_space l.

(** The limit on the digits of an [int] printed or read. *)
Definition max_str_digits : nat := 4300.

Definition too_long (digits : nat) : bool := Nat.ltb max_str_digits digits.

(** Takes the character [ch] off the front, when it is there. *)
Definition eat (ch : ascii) (l : list ascii) : option (list ascii) :=
  match l with
  | c :: r => if Ascii.eqb c ch then Some r else None
  | [] => None
  end.

Definition parse_sign (l : list ascii) : bool * list ascii :=
  match eat "-" l with
  | Some r => (true, r)
  | None =>
      match eat "+" l with
      | Some r => (false, r)
      | None => (false, l)
      end
  end.

(** A run [\d+(_\d+)*] read onto the accumulator [acc]; [n] counts the
    digits read so far, an underscore is taken only between two digits.
    Returns the value, the number of digits and the unread rest. *)
Fixpoint digits (acc : Z) (n : nat) (l : list ascii) : Z * nat * list ascii :=
  match l with
  | c :: r =>
      match digit_val c with
      | Some d => digits (10 * acc + d) (S n) r
      | None =>
          if Ascii.eqb c "_" && negb (Nat.eqb n 0) && starts_with_digit r
          then digits acc n r
          else (acc, n, l)
      end
  | [] => (acc, n, l)
  end.

Definition lower (c : ascii) : ascii :=
  let n := nat_of_ascii c in
  if Nat.leb 65 n && Nat.leb n 90 then ascii_of_nat (n + 32) else c.

(** Removes the (lower-case) prefix [pat], compared without case. *)
Fixpoint strip_prefix (pat l : list ascii) : option (list ascii) :=
  match pat, l with
  | [], _ => Some l
  | p :: pat', c :: r => if Ascii.eqb (lower c) p then strip_prefix pat' r else None
  | _ :: _, [] => None
  end.

Definition pow10 (k : Z) : Z := 10 ^ k.

(** [m * 10^e] as a rational. *)
Definition scaled (m e : Z) : Q :=
  if 0 <=? e then Qmake (m * pow10 e) 1 else Qmake m (Z.to_pos (pow10 (- e))).

(** An optional exponent [E[-+]?\d+(_\d+)*]: its value, the number of its
    digits and the rest; without digits after the [E] nothing is consumed. *)
Definition exponent (l : list ascii) : Z * nat * list ascii :=
  match l with
  | c :: r =>
      if Ascii.eqb (lower c) "e" then
        let '(neg, r1) := parse_sign r in
        let '(ex, k, r2) := digits 0 0 r1 in
        if Nat.eqb k 0 then (0, O, l) else ((if neg then - ex else ex), k, r2)
      else (0, O, l)
  | [] => (0, O, l)
  end.

(** An optional decimal part [\.\d*] read onto the integer part [ip]:
    the digits so far, how many follow the point, and the rest. *)
Definition decimals (ip : Z) (l : list ascii) : Z * nat * list ascii :=
  match eat "." l with
  | Some r => digits ip 0 r
  | None => (ip, O, l)
  end.

(** [fractions.Fraction(s)] for a string [s] (the module's
    [_RATIONAL_FORMAT]): sign, numerator, then either [/denominator] or a
    decimal part and an exponent.  ValueError when [s] is no literal, and
    when [int] refuses one of the matched groups for its length;
    ZeroDivisionError on a zero denominator. *)
Definition Fraction_of_chars (l0 : list ascii) : result Q :=
  let '(neg, l) := parse_sign (skip_re_spaces l0) in
  let lookahead :=
    starts_with_digit l
    || match eat "." l with Some r => starts_with_digit r | None => false end in
  if negb lookahead then Err ValueError else
  let '(num, kn, l1) := digits 0 0 l in
  let sgn (z : Z) := if neg then - z else z in
  match eat "/" l1 with
  | Some l2 =>
      let '(den, k, l3) := digits 0 0 l2 in
      if Nat.eqb k 0 || negb (all_re_space l3) then Err ValueError
      else if too_long kn || too_long k then Err ValueError
      else if den =? 0 then Err ZeroDivisionError
      else Ok (Qred (Qmake (sgn num) (Z.to_pos den)))
  | None =>
      let '(m, kf, l2) := decimals num l1 in
      let '(ex, ke, l3) := exponent l2 in
      if negb (all_re_space l3) then Err ValueError
      else if too_long kn || too_long kf || too_long ke then Err ValueError
      else Ok (Qred (scaled (sgn m) (ex - Z.of_nat kf)))
  end.

Definition Fraction_of_string (s : string) : result Q :=
  Fraction_of_chars (list_ascii_of_string s).

(** [float(s)] for a string [s]: surrounding white space is dropped; the
    literal is [inf], [infinity], [nan] (any case) or a decimal number, read
    to the nearest double (an out-of-range literal gives an infinity). *)
Definition special (l : list ascii) : option (spec_float * list ascii) :=
  match strip_prefix ["i"; "n"; "f"; "i"; "n"; "i"; "t"; "y"] l with
  | Some r => Some (S754_infinity false, r)
  | None =>
      match strip_prefix ["i"; "n"; "f"] l with
      | Some r => Some (S754_infinity false, r)
      | None =>
          match strip_prefix ["n"; "a"; "n"] l with
          | Some r => Some (S754_nan, r)
          | None => None
          end
      end
  end.

Definition signed (neg : bool) (sf : spec_float) : spec_float :=
  if neg then SFopp sf else sf.

Definition float_of_chars (l0 : list ascii) : result float :=
  let '(neg, l) := parse_sign (skip_spaces l0) in
  match special l with
  | Some (sf, r) =>
      if all_space r then Ok (SF2Prim (signed neg sf)) else Err ValueError
  | None =>
      let '(ip, ki, l1) := digits 0 0 l in
      let '(m, kf, l2) := decimals ip l1 in
      if Nat.eqb (ki + kf) 0 then Err ValueError else
      let '(ex, _, l3) := exponent l2 in
      if negb (all_space l3) then Err ValueError
      else Ok (SF2Prim (signed neg (F64.nearest (scaled m (ex - Z.of_nat kf)))))
  end.

Definition float_of_string (s : string) : result float :=
  float_of_chars (list_ascii_of_string s).

(** The decimal numeral of an integer, and the number of its digits. *)
Definition decimal (z : Z) : string := NilZero.string_of_int (Z.to_int z).

Definition int_digits (z : Z) : nat :=
  match Z.to_int z with
  | Decimal.Pos d | Decimal.Neg d => Decimal.nb_digits d
  end.

(** [str(n)] for an [int]: ValueError beyond the limit. *)
Definition str_int (z : Z) : result string :=
  if too_long (int_digits z) then Err ValueError else Ok (decimal z).

(** [str(q)] for a [Fraction]: [n] or [n/d]. *)
Definition str_Fraction (q : Q) : result string :=
  match Qden q with
  | xH => str_int (Qnum q)
  | d =>
      n <- str_int (Qnum q) ;;
      d <- str_int (Zpos d) ;;
      Ok (n ++ "/" ++ d)%string
  end.

End Lit.

(** ** What the interpreter and the C library supply

    [math], [cmath], [**] on doubles and the shortest-repr printer of doubles
    are not IEEE operations: their results depend on the platform.  Every
    method is stated over an arbitrary [Platform]; errors they raise
    (ValueError on a domain error, OverflowError on a range error) are part of
    the functions. *)

Definition cplx : Type := (float * float)%type.

Inductive Kind : Type := REAL | COMPLEX | OMEGA | BOTTOM.

Record Platform : Type := {
  math_exp : float -> result float;
  math_log : float -> result float;
  math_sin : float -> result float;
  math_cos : float -> result float;
  math_pow : float -> float -> result float;
  (* [x ** n] for a double [x] and an [int] [n] *)
  float_pow : float -> Z -> result float;
  (* [z ** n] for a complex [z] and an [int] [n] *)
  complex_pow : cplx -> Z -> result cplx;
  (* [abs(z)] for a complex [z] *)
  complex_abs : cplx -> result float;
  cmath_exp : cplx -> result cplx;
  cmath_log : cplx -> result cplx;
  cmath_sin : cplx -> result cplx;
  cmath_cos : cplx -> result cplx;
  cmath_sqrt : cplx -> result cplx;
  (* [repr] digits of a double; the flags ask for a leading sign and for a
     trailing [.0] on integral values *)
  repr_double : bool -> bool -> float -> string;
  (* the built-in [hash] of an enum member (the salted hash of its name) and
     of a payload *)
  hash_kind : Kind -> Z;
  hash_val : pyval -> Z
}.

(** ** Python's arithmetic on these values (CPython 3.10 to 3.13) *)

Module Py.

Local Open Scope float_scope.

(** [float(x)] *)
Definition float_ (v : pyval) : result float :=
  match v with
  | PInt z => F64.of_Q (Qmake z 1)
  | PFrac q => F64.of_Q q
  | PFloat f => Ok f
  | PComplex _ _ | PNone => Err TypeError
  end.

(** [Fraction(x)] *)
Definition Fraction_ (v : pyval) : result Q :=
  match v with
  | PInt z => Ok (Qmake z 1)
  | PFrac q => Ok q
  | PFloat f => F64.to_Q f
  | PComplex _ _ | PNone => Err TypeError
  end.

(** A number as a complex: [complex(x)], and the conversion of an argument
    of [cmath] or of an operand met by a complex one. *)
Definition complex_ (v : pyval) : result cplx :=
  match v with
  | PComplex re im => Ok (re, im)
  | PFloat f => Ok (f, 0)
  | PInt _ | PFrac _ => f <- float_ v ;; Ok (f, 0)
  | PNone => Err TypeError
  end.

Definition as_Q (v : pyval) : option Q :=
  match v with
  | PInt z => Some (Qmake z 1)
  | PFrac q => Some q
  | _ => None
  end.

(** The common type two operands are brought to. *)
Inductive tower : Type :=
| TInt (a b : Z)
| TFrac (a b : Q)
| TFloat (a b : float)
| TComplex (a b : cplx).

Definition promote (a b : pyval) : result tower :=
  match a, b with
  | PNone, _ | _, PNone => Err TypeError
  | PComplex _ _, _ | _, PComplex _ _ =>
      x <- complex_ a ;; y <- complex_ b ;; Ok (TComplex x y)
  | PFloat _, _ | _, PFloat _ =>
      x <- float_ a ;; y <- float_ b ;; Ok (TFloat x y)
  | PFrac x, PFrac y => Ok (TFrac x y)
  | PFrac x, PInt y => Ok (TFrac x (Qmake y 1))
  | PInt x, PFrac y => Ok (TFrac (Qmake x 1) y)
  | PInt x, PInt y => Ok (TInt x y)
  end.

Definition c_sum (a b : cplx) : cplx := (fst a + fst b, snd a + snd b).
Definition c_prod (a b : cplx) : cplx :=
  (fst a * fst b - snd a * snd b, fst a * snd b + snd a * fst b).
Definition c_neg (a : cplx) : cplx := (- fst a, - snd a).

(** [_Py_c_quot]; ZeroDivisionError on a zero divisor. *)
Definition c_quot (a b : cplx) : result cplx :=
  let '(ar, ai) := a in
  let '(br, bi) := b in
  let abs_breal := if br <? 0 then - br else br in
  let abs_bimag := if bi <? 0 then - bi else bi in
  if F64.ge abs_breal abs_bimag then
    if abs_breal =? 0 then Err ZeroDivisionError
    else
      let ratio := bi / br in
      let denom := br + bi * ratio in
      Ok ((ar + ai * ratio) / denom, (ai - ar * ratio) / denom)
  else if F64.ge abs_bimag abs_breal then
    let ratio := br / bi in
    let denom := br * ratio + bi in
    Ok ((ar * ratio + ai) / denom, (ai * ratio - ar) / denom)
  else Ok (nan, nan).

Definition of_cplx (c : cplx) : pyval := PComplex (fst c) (snd c).

(** [a + b] *)
Definition add (a b : pyval) : result pyval :=
  t <- promote a b ;;
  match t with
  | TInt x y => Ok (PInt (x + y))
  | TFrac x y => Ok (PFrac (Qred (Qplus x y)))
  | TFloat x y => Ok (PFloat (x + y))
  | TComplex x y => Ok (of_cplx (c_sum x y))
  end.

(** [a * b] *)
Definition mul (a b : pyval) : result pyval :=
  t <- promote a b ;;
  match t with
  | TInt x y => Ok (PInt (x * y))
  | TFrac x y => Ok (PFrac (Qred (Qmult x y)))
  | TFloat x y => Ok (PFloat (x * y))
  | TComplex x y => Ok (of_cplx (c_prod x y))
  end.

(** [a / b] *)
Definition div (a b : pyval) : result pyval :=
  t <- promote a b ;;
  match t with
  | TInt x y =>
      if (y =? 0)%Z then Err ZeroDivisionError
      else fmap PFloat (F64.of_Q (Qred (Qdiv (Qmake x 1) (Qmake y 1))))
  | TFrac x y =>
      if (Qnum y =? 0)%Z then Err ZeroDivisionError
      else Ok (PFrac (Qred (Qdiv x y)))
  | TFloat x y =>
      if y =? 0 then Err ZeroDivisionError else Ok (PFloat (x / y))
  | TComplex x y => fmap of_cplx (c_quot x y)
  end.

(** [-a] *)
Definition neg (a : pyval) : result pyval :=
  match a with
  | PInt z => Ok (PInt (- z))
  | PFrac q => Ok (PFrac (Qopp q))
  | PFloat f => Ok (PFloat (- f))
  | PComplex re im => Ok (PComplex (- re) (- im))
  | PNone => Err TypeError
  end.

(** [abs(a)] *)
Definition abs (P : Platform) (a : pyval) : result pyval :=
  match a with
  | PInt z => Ok (PInt (Z.abs z))
  | PFrac q => Ok (PFrac (Qabs q))
  | PFloat f => Ok (PFloat (PrimFloat.abs f))
  | PComplex re im => fmap PFloat (complex_abs P (re, im))
  | PNone => Err TypeError
  end.

(** [q == f] for an exact [q] and a double [f]: exact, never on a NaN or an
    infinity. *)
Definition Q_eq_float (q : Q) (f : float) : bool :=
  match F64.to_Q f with
  | Ok q' => Qeq_bool q q'
  | Err _ => false
  end.

Definition real_eq (a b : pyval) : bool :=
  match a, b with
  | PFloat x, PFloat y => x =? y
  | PFloat x, _ => match as_Q b with Some q => Q_eq_float q x | None => false end
  | _, PFloat y => match as_Q a with Some q => Q_eq_float q y | None => false end
  | _, _ =>
      match as_Q a, as_Q b with
      | Some x, Some y => Qeq_bool x y
      | _, _ => false
      end
  end.

(** [a == b]; it never raises. *)
Definition eq (a b : pyval) : bool :=
  match a, b with
  | PNone, PNone => true
  | PNone, _ | _, PNone => false
  | PComplex ar ai, PComplex br bi => (ar =? br) && (ai =? bi)
  | PComplex re im, _ => (im =? 0) && real_eq (PFloat re) b
  | _, PComplex re im => (im =? 0) && real_eq a (PFloat re)
  | _, _ => real_eq a b
  end.

Inductive cmpop : Type := OLt | OLe | OGt | OGe.

Definition flip (op : cmpop) : cmpop :=
  match op with OLt => OGt | OLe => OGe | OGt => OLt | OGe => OLe end.

Definition cmp_float (op : cmpop) (x y : float) : bool :=
  match op with
  | OLt => x <? y
  | OLe => x <=? y
  | OGt => y <? x
  | OGe => y <=? x
  end.

Definition cmp_Q (op : cmpop) (x y : Q) : bool :=
  match op with
  | OLt => negb (Qle_bool y x)
  | OLe => Qle_bool x y
  | OGt => negb (Qle_bool x y)
  | OGe => Qle_bool y x
  end.

(** [Fraction._richcmp] against a double: exact on a finite one, [op(0.0, f)]
    on a NaN or an infinity. *)
Definition cmp_Q_float (op : cmpop) (q : Q) (f : float) : bool :=
  match F64.to_Q f with
  | Ok q' => cmp_Q op q q'
  | Err _ => cmp_float op 0 f
  end.

(** [a < b], [a <= b], [a > b], [a >= b]; TypeError on a complex or on
    [None]. *)
Definition cmp (op : cmpop) (a b : pyval) : result bool :=
  match a, b with
  | PFloat x, PFloat y => Ok (cmp_float op x y)
  | PFloat x, _ =>
      match as_Q b with
      | Some q => Ok (cmp_Q_float (flip op) q x)
      | None => Err TypeError
      end
  | _, PFloat y =>
      match as_Q a with
      | Some q => Ok (cmp_Q_float op q y)
      | None => Err TypeError
      end
  | _, _ =>
      match as_Q a, as_Q b with
      | Some x, Some y => Ok (cmp_Q op x y)
      | _, _ => Err TypeError
      end
  end.

(** [Fraction.__pow__] with an [int] exponent. *)
Definition Q_pow (q : Q) (n : Z) : result Q :=
  let num := Qnum q in
  let den := Zpos (Qden q) in
  if (0 <=? n)%Z then Ok (Qmake (num ^ n) (Z.to_pos (den ^ n)))
  else if (0 <? num)%Z then Ok (Qmake (den ^ (- n)) (Z.to_pos (num ^ (- n))))
  else if (num =? 0)%Z then Err ZeroDivisionError
  else Ok (Qmake ((- den) ^ (- n)) (Z.to_pos ((- num) ^ (- n)))).

(** [a ** n] for an [int] [n] *)
Definition pow_int (P : Platform) (a : pyval) (n : Z) : result pyval :=
  match a with
  | PInt z =>
      if (0 <=? n)%Z then Ok (PInt (z ^ n))
      else f <- float_ a ;; fmap PFloat (float_pow P f n)
  | PFrac q => fmap PFrac (Q_pow q n)
  | PFloat f => fmap PFloat (float_pow P f n)
  | PComplex re im => fmap of_cplx (complex_pow P (re, im) n)
  | PNone => Err TypeError
  end.

(** [a.real] and [a.imag] *)
Definition real_part (a : pyval) : result pyval :=
  match a with
  | PComplex re _ => Ok (PFloat re)
  | PNone => Err AttributeError
  | _ => Ok a
  end.

Definition imag_part (a : pyval) : result pyval :=
  match a with
  | PComplex _ im => Ok (PFloat im)
  | PFloat _ => Ok (PFloat 0)
  | PInt _ | PFrac _ => Ok (PInt 0)
  | PNone => Err AttributeError
  end.

(** [math.sqrt]: the IEEE square root, ValueError below zero. *)
Definition math_sqrt (f : float) : result float :=
  if f <? 0 then Err ValueError else Ok (PrimFloat.sqrt f).

(** [str(z)] for a complex: the imaginary part alone when the real part is
    [+0.0], else both in parentheses. *)
Definition str_complex (P : Platform) (c : cplx) : string :=
  let '(re, im) := c in
  if (re =? 0) && F64.positive_sign re
  then (repr_double P false false im ++ "j")%string
  else ("(" ++ repr_double P false false re
            ++ repr_double P true false im ++ "j)")%string.

(** [str(a)] *)
Definition str (P : Platform) (a : pyval) : result string :=
  match a with
  | PInt z => Lit.str_int z
  | PFrac q => Lit.str_Fraction q
  | PFloat f => Ok (repr_double P false true f)
  | PComplex re im => Ok (str_complex P (re, im))
  | PNone => Ok "None"%string
  end.

(** [bool(a)] *)
Definition truth (a : pyval) : bool :=
  match a with
  | PInt z => negb (z =? 0)%Z
  | PFrac q => negb (Qnum q =? 0)%Z
  | PFloat f => negb (f =? 0)
  | PComplex re im => negb (re =? 0) || negb (im =? 0)
  | PNone => false
  end.

End Py.

(** ** The class [ExtNum] *)

Definition Kind_eqb (a b : Kind) : bool :=
  match a, b with
  | REAL, REAL | COMPLEX, COMPLEX | OMEGA, OMEGA | BOTTOM, BOTTOM => true
  | _, _ => false
  end.

(** [Kind.name] and [Kind[name]] *)
Definition Kind_name (k : Kind) : string :=
  match k with
  | REAL => "REAL"
  | COMPLEX => "COMPLEX"
  | OMEGA => "OMEGA"
  | BOTTOM => "BOTTOM"
  end.

Definition Kind_of_name (s : string) : result Kind :=
  if String.eqb s "REAL" then Ok REAL
  else if String.eqb s "COMPLEX" then Ok COMPLEX
  else if String.eqb s "OMEGA" then Ok OMEGA
  else if String.eqb s "BOTTOM" then Ok BOTTOM
  else Err KeyError.

Record ExtNum : Type := mkExtNum {
  kind : Kind;
  val : pyval;
  use_float : bool
}.

(** The right operand of a binary method: an [ExtNum] or a foreign value. *)
Inductive operand : Type :=
| OExt (x : ExtNum)
| OVal (v : pyval).

(** *** Construction *)

Definition real (x : pyval) (use_float : bool) : result ExtNum :=
  v <- (if use_float then fmap PFloat (Py.float_ x)
        else fmap PFrac (Py.Fraction_ x)) ;;
  Ok (mkExtNum REAL v use_float).

(** The payload of a COMPLEX is a Python [complex] in both modes: in exact
    mode the two [Fraction]s are handed to [complex(...)], which stores
    doubles. *)
Definition complex (re im : pyval) (use_float : bool) : result ExtNum :=
  v <- (if use_float then
          r <- Py.float_ re ;; i <- Py.float_ im ;; Ok (PComplex r i)
        else
          r <- Py.Fraction_ re ;; i <- Py.Fraction_ im ;;
          r' <- F64.of_Q r ;; i' <- F64.of_Q i ;; Ok (PComplex r' i')) ;;
  Ok (mkExtNum COMPLEX v use_float).

Definition omega (a : pyval) (use_float : bool) : result ExtNum :=
  a_val <- (if use_float && is_Real a then fmap PFloat (Py.float_ a)
            else if is_Real a then fmap PFrac (Py.Fraction_ a)
            else fmap Py.of_cplx (Py.complex_ a)) ;;
  if Py.eq a_val (PInt 0) then Err ValueError
  else Ok (mkExtNum OMEGA a_val use_float).

Definition bottom : ExtNum := mkExtNum BOTTOM PNone false.

(** *** Helpers *)

Definition is_finite (self : ExtNum) : bool :=
  match kind self with REAL | COMPLEX => true | _ => false end.
Definition is_infinite (self : ExtNum) : bool := Kind_eqb (kind self) OMEGA.
Definition is_undefined (self : ExtNum) : bool := Kind_eqb (kind self) BOTTOM.
Definition subscript (self : ExtNum) : pyval :=
  if Kind_eqb (kind self) OMEGA then val self else PNone.

Definition __bool__ (self : ExtNum) : bool :=
  match kind self with
  | BOTTOM => false
  | OMEGA => true
  | _ => Py.truth (val self)
  end.

(** *** Coercion, equality and hashing *)

Definition _coerce (self : ExtNum) (other : operand) : result ExtNum :=
  match other with
  | OExt x => Ok x
  | OVal v =>
      if is_Real v then real v (use_float self)
      else if is_Complex v then
        re <- Py.real_part v ;; im <- Py.imag_part v ;;
        complex re im (use_float self)
      else Err TypeError
  end.

Definition __eq__ (self : ExtNum) (other : operand) : result bool :=
  other <- _coerce self other ;;
  if Kind_eqb (kind self) BOTTOM && Kind_eqb (kind other) BOTTOM then Ok true
  else Ok (Kind_eqb (kind self) (kind other) && Py.eq (val self) (val other)).

(** *** Arithmetic that needs no library function *)

Definition zero : pyval := PInt 0.

Definition __mul__ (self : ExtNum) (other : operand) : result ExtNum :=
  other <- _coerce self other ;;
  if Kind_eqb (kind self) BOTTOM || Kind_eqb (kind other) BOTTOM then Ok bottom
  else if (is_finite self && Py.eq (val self) zero)
          || (is_finite other && Py.eq (val other) zero)
  then real (PInt 0) (use_float self)
  else if Kind_eqb (kind self) OMEGA || Kind_eqb (kind other) OMEGA then
    v <- Py.mul (val self) (val other) ;; omega v (use_float self)
  else
    v <- Py.mul (val self) (val other) ;;
    Ok (mkExtNum (kind self) v (use_float self)).

Definition __rmul__ := __mul__.

Definition __truediv__ (self : ExtNum) (other : operand) : result ExtNum :=
  other <- _coerce self other ;;
  if Kind_eqb (kind self) BOTTOM || Kind_eqb (kind other) BOTTOM then Ok bottom
  else if is_finite other && Py.eq (val other) zero then
    if is_finite self then
      if Py.eq (val self) zero then Ok bottom
      else omega (val self) (use_float self)
    else omega (val self) (use_float self)
  else if Kind_eqb (kind self) OMEGA || Kind_eqb (kind other) OMEGA then
    v <- Py.div (val self) (val other) ;; omega v (use_float self)
  else
    v <- Py.div (val self) (val other) ;;
    Ok (mkExtNum (kind self) v (use_float self)).

Definition __rtruediv__ (self : ExtNum) (other : operand) : result ExtNum :=
  other <- _coerce self other ;; __truediv__ other (OExt self).

Definition __neg__ (self : ExtNum) : result ExtNum :=
  match kind self with
  | REAL | COMPLEX =>
      v <- Py.neg (val self) ;; Ok (mkExtNum (kind self) v (use_float self))
  | OMEGA => v <- Py.neg (val self) ;; omega v (use_float self)
  | BOTTOM => Ok bottom
  end.

Definition sign (self : ExtNum) : result ExtNum :=
  match kind self with
  | REAL =>
      if Py.eq (val self) zero then real (PInt 0) (use_float self)
      else
        pos <- Py.cmp Py.OGt (val self) zero ;;
        real (PInt (if pos then 1 else -1)) (use_float self)
  | OMEGA =>
      pos <- Py.cmp Py.OGt (val self) zero ;;
      real (PInt (if pos then 1 else -1)) (use_float self)
  | _ => Ok bottom
  end.

(** [safe_div]: a foreign numerator or denominator becomes a REAL. *)
Definition safe_div (num den : operand) (use_float : bool) : result ExtNum :=
  n <- match num with OExt x => Ok x | OVal v => real v use_float end ;;
  d <- match den with OExt x => Ok x | OVal v => real v use_float end ;;
  __truediv__ n (OExt d).

(** *** Methods that call into the platform *)

Section Methods.

Variable P : Platform.

(** [math.f(x)] and [cmath.f(x)]: the argument is first converted to a
    double, respectively to a complex. *)
Definition math1 (f : float -> result float) (x : pyval) : result pyval :=
  a <- Py.float_ x ;; fmap PFloat (f a).
Definition cmath1 (f : cplx -> result cplx) (x : pyval) : result pyval :=
  a <- Py.complex_ x ;; fmap Py.of_cplx (f a).

(** [hash((kind, val, use_float))]: CPython's [tuplehash] on a 64-bit
    build, over the hashes of the three items ([hash(False) = 0],
    [hash(True) = 1]). *)
Definition XXPRIME_1 : Z := 11400714785074694791.
Definition XXPRIME_2 : Z := 14029467366897019727.
Definition XXPRIME_5 : Z := 2870177450012600261.
Definition u64 (z : Z) : Z := z mod 2 ^ 64.
Definition XXROTATE (x : Z) : Z := u64 (Z.lor (Z.shiftl x 31) (Z.shiftr x 33)).

Definition tuplehash_step (acc lane : Z) : Z :=
  let acc := u64 (acc + u64 lane * XXPRIME_2) in
  let acc := XXROTATE acc in
  u64 (acc * XXPRIME_1).

Definition tuplehash (lanes : list Z) : Z :=
  let acc := fold_left tuplehash_step lanes XXPRIME_5 in
  let acc := u64 (acc + Z.lxor (Z.of_nat (List.length lanes))
                               (Z.lxor XXPRIME_5 3527539)) in
  if acc =? 2 ^ 64 - 1 then 1546275796
  else if acc <? 2 ^ 63 then acc else acc - 2 ^ 64.

Definition __hash__ (self : ExtNum) : Z :=
  tuplehash [hash_kind P (kind self); hash_val P (val self);
             (if use_float self then 1 else 0)].

Definition _add_sub (self : ExtNum) (other : operand) (sign : Z)
  : result ExtNum :=
  other <- _coerce self other ;;
  if Kind_eqb (kind self) BOTTOM || Kind_eqb (kind other) BOTTOM then Ok bottom
  else
    match kind self, kind other with
    | REAL, REAL =>
        t <- Py.mul (PInt sign) (val other) ;;
        v <- Py.add (val self) t ;;
        real v (use_float self)
    | COMPLEX, COMPLEX =>
        t <- Py.mul (PInt sign) (val other) ;;
        v <- Py.add (val self) t ;;
        re <- Py.real_part v ;; im <- Py.imag_part v ;;
        complex re im (use_float self)
    | OMEGA, OMEGA =>
        if Py.eq (val self) (val other) && (sign =? -1)
        then real (PInt 0) (use_float self)
        else
          a <- Py.abs P (val self) ;;
          b <- Py.abs P (val other) ;;
          ge <- Py.cmp Py.OGe a b ;;
          if ge then omega (val self) (use_float self)
          else t <- Py.mul (PInt sign) (val other) ;;
               omega t (use_float self)
    | OMEGA, _ => Ok self
    | _, OMEGA =>
        t <- Py.mul (PInt sign) (val other) ;;
        omega t (use_float self)
    | _, _ => Err ValueError
    end.

Definition __add__ (self : ExtNum) (other : operand) := _add_sub self other 1.
Definition __sub__ (self : ExtNum) (other : operand) := _add_sub self other (-1).
Definition __radd__ (self : ExtNum) (other : operand) : result ExtNum :=
  o <- _coerce self other ;; __add__ o (OExt self).
Definition __rsub__ (self : ExtNum) (other : operand) : result ExtNum :=
  o <- _coerce self other ;; __sub__ o (OExt self).

Definition __pow__ (self : ExtNum) (exp : pyval) : result ExtNum :=
  match kind self, exp with
  | REAL, PFloat e =>
      base <- Py.float_ (val self) ;;
      if PrimFloat.ltb base 0 then
        l <- cmath1 (cmath_log P) (PFloat base) ;;
        t <- Py.mul exp l ;;
        c <- cmath1 (cmath_exp P) t ;;
        re <- Py.real_part c ;; im <- Py.imag_part c ;;
        complex re im true
      else
        r <- math_pow P base e ;; real (PFloat r) true
  | _, PInt n =>
      if n =? 0 then
        if Py.eq (val self) zero then Ok bottom
        else real (PInt 1) (use_float self)
      else
        match kind self with
        | COMPLEX =>
            v <- Py.pow_int P (val self) n ;;
            complex v (PInt 0) (use_float self)
        | OMEGA =>
            v <- Py.pow_int P (val self) n ;; omega v (use_float self)
        | _ =>
            v <- Py.pow_int P (val self) n ;; real v (use_float self)
        end
  | _, _ => Err TypeError
  end.

(** *** Comparisons *)

Definition _cmp_key (self : ExtNum) : result (Z * pyval) :=
  match kind self with
  | BOTTOM => Err ValueError
  | REAL => Ok (0, val self)
  | OMEGA => a <- Py.abs P (val self) ;; Ok (1, a)
  | COMPLEX => Err ValueError
  end.

(** [<] on two pairs: the first items decide unless they are equal. *)
Definition key_lt (a b : Z * pyval) : result bool :=
  if negb (fst a =? fst b) then Ok (fst a <? fst b)
  else if Py.eq (snd a) (snd b) then Ok false
  else Py.cmp Py.OLt (snd a) (snd b).

Definition __lt__ (self : ExtNum) (other : operand) : result bool :=
  k1 <- _cmp_key self ;;
  o <- _coerce self other ;;
  k2 <- _cmp_key o ;;
  key_lt k1 k2.

Definition __le__ (self : ExtNum) (other : operand) : result bool :=
  e <- __eq__ self other ;;
  if e then Ok true else __lt__ self other.

Definition __gt__ (self : ExtNum) (other : operand) : result bool :=
  fmap negb (__le__ self other).

Definition __ge__ (self : ExtNum) (other : operand) : result bool :=
  fmap negb (__lt__ self other).

(** *** Unary functions *)

Definition abs (self : ExtNum) : result ExtNum :=
  match kind self with
  | REAL | COMPLEX => a <- Py.abs P (val self) ;; real a (use_float self)
  | OMEGA => a <- Py.abs P (val self) ;; omega a (use_float self)
  | BOTTOM => Ok bottom
  end.

Definition log (self : ExtNum) : result ExtNum :=
  match kind self with
  | REAL =>
      le <- Py.cmp Py.OLe (val self) zero ;;
      if le then
        l <- cmath1 (cmath_log P) (val self) ;;
        complex l (PInt 0) (use_float self)
      else
        l <- math1 (math_log P) (val self) ;; real l (use_float self)
  | COMPLEX =>
      l <- cmath1 (cmath_log P) (val self) ;;
      complex l (PInt 0) (use_float self)
  | OMEGA =>
      lv <- (if is_complex (val self) then cmath1 (cmath_log P) (val self)
             else a <- Py.abs P (val self) ;; math1 (math_log P) a) ;;
      n <- Py.abs P lv ;;
      if negb (Py.eq n zero) then omega lv (use_float self) else Ok bottom
  | BOTTOM => Ok bottom
  end.

Definition exp (self : ExtNum) : result ExtNum :=
  match kind self with
  | REAL => e <- math1 (math_exp P) (val self) ;; real e (use_float self)
  | COMPLEX =>
      e <- cmath1 (cmath_exp P) (val self) ;;
      complex e (PInt 0) (use_float self)
  | OMEGA =>
      ev <- (if is_complex (val self) then cmath1 (cmath_exp P) (val self)
             else math1 (math_exp P) (val self)) ;;
      omega ev (use_float self)
  | BOTTOM => Ok bottom
  end.

Definition sin (self : ExtNum) : result ExtNum :=
  match kind self with
  | REAL | COMPLEX =>
      s <- cmath1 (cmath_sin P) (val self) ;;
      Ok (mkExtNum (kind self) s (use_float self))
  | OMEGA =>
      sv <- (if is_complex (val self) then cmath1 (cmath_sin P) (val self)
             else math1 (math_sin P) (val self)) ;;
      omega sv (use_float self)
  | BOTTOM => Ok bottom
  end.

Definition cos (self : ExtNum) : result ExtNum :=
  match kind self with
  | REAL | COMPLEX =>
      c <- cmath1 (cmath_cos P) (val self) ;;
      Ok (mkExtNum (kind self) c (use_float self))
  | OMEGA =>
      cv <- (if is_complex (val self) then cmath1 (cmath_cos P) (val self)
             else math1 (math_cos P) (val self)) ;;
      omega cv (use_float self)
  | BOTTOM => Ok bottom
  end.

Definition sqrt (self : ExtNum) : result ExtNum :=
  match kind self with
  | REAL =>
      lt <- Py.cmp Py.OLt (val self) zero ;;
      if lt then
        s <- cmath1 (cmath_sqrt P) (val self) ;;
        complex s (PInt 0) (use_float self)
      else
        s <- math1 Py.math_sqrt (val self) ;; real s (use_float self)
  | COMPLEX =>
      s <- cmath1 (cmath_sqrt P) (val self) ;;
      complex s (PInt 0) (use_float self)
  | OMEGA =>
      sv <- (if is_complex (val self) then cmath1 (cmath_sqrt P) (val self)
             else a <- Py.abs P (val self) ;; math1 Py.math_sqrt a) ;;
      omega sv (use_float self)
  | BOTTOM => Ok bottom
  end.

(** *** Representation

    An f-string with no format specification prints [str] of the value. *)

Definition __repr__ (self : ExtNum) : result string :=
  match kind self with
  | REAL => Py.str P (val self)
  | COMPLEX =>
      im <- Py.imag_part (val self) ;;
      if negb (Py.eq im zero) then Py.str P (val self)
      else re <- Py.real_part (val self) ;; Py.str P re
  | OMEGA => s <- Py.str P (val self) ;; Ok ("Ω(" ++ s ++ ")")%string
  | BOTTOM => Ok "⊥"%string
  end.

End Methods.

(** ** Serialization

    [json.dumps] and [json.loads] are taken at the level of the document they
    print and read: an object of strings, booleans and nested objects, which
    the two functions carry unchanged. *)

#[warnings="-register-all"] Inductive json : Type :=
| JBool (b : bool)
| JStr (s : string)
| JObj (fields : list (string * json)).

Fixpoint lookup (key : string) (fields : list (string * json)) : option json :=
  match fields with
  | [] => None
  | (k, v) :: rest => if String.eqb k key then Some v else lookup key rest
  end.

(** [o[key]] *)
Definition getitem (o : json) (key : string) : result json :=
  match o with
  | JObj fields =>
      match lookup key fields with
      | Some v => Ok v
      | None => Err KeyError
      end
  | _ => Err TypeError
  end.

(** [bool(v)] *)
Definition truthy (v : json) : bool :=
  match v with
  | JBool b => b
  | JStr s => negb (String.eqb s "")
  | JObj fields => match fields with [] => false | _ => true end
  end.

(** [float(v)] and [Fraction(v)] on a value of the document ([True] and
    [False] are the integers 1 and 0). *)
Definition json_float (v : json) : result float :=
  match v with
  | JStr s => Lit.float_of_string s
  | JBool b => Py.float_ (PInt (if b then 1 else 0))
  | JObj _ => Err TypeError
  end.

Definition json_Fraction (v : json) : result Q :=
  match v with
  | JStr s => Lit.Fraction_of_string s
  | JBool b => Py.Fraction_ (PInt (if b then 1 else 0))
  | JObj _ => Err TypeError
  end.

Definition json_number (uf : bool) (v : json) : result pyval :=
  if uf then fmap PFloat (json_float v) else fmap PFrac (json_Fraction v).

Definition to_json (P : Platform) (self : ExtNum) : result json :=
  let obj := [("kind"%string, JStr (Kind_name (kind self)));
              ("use_float"%string, JBool (use_float self))] in
  match kind self with
  | COMPLEX =>
      re <- Py.real_part (val self) ;;
      sr <- Py.str P re ;;
      im <- Py.imag_part (val self) ;;
      si <- Py.str P im ;;
      Ok (JObj (List.app obj
                  [("val"%string, JObj [("real"%string, JStr sr);
                                        ("imag"%string, JStr si)])]))
  | BOTTOM => Ok (JObj obj)
  | _ =>
      s <- Py.str P (val self) ;;
      Ok (JObj (List.app obj [("val"%string, JStr s)]))
  end.

(** The flag is kept by its truth value, which is what the branches of
    [from_json] test ([to_json] writes a Boolean). *)
Definition from_json (o : json) : result ExtNum :=
  name <- getitem o "kind" ;;
  k <- match name with
       | JStr s => Kind_of_name s
       | JBool _ => Err KeyError
       | JObj _ => Err TypeError
       end ;;
  let uf := match o with
            | JObj fields =>
                match lookup "use_float" fields with
                | Some v => truthy v
                | None => false
                end
            | _ => false
            end in
  match k with
  | BOTTOM => Ok bottom
  | COMPLEX =>
      v <- getitem o "val" ;;
      rj <- getitem v "real" ;;
      r <- json_number uf rj ;;
      ij <- getitem v "imag" ;;
      i <- json_number uf ij ;;
      complex r i uf
  | _ =>
      vj <- getitem o "val" ;;
      v <- json_number uf vj ;;
      Ok (mkExtNum k v uf)
  end.

(** [decode(encode(v))] *)
Definition roundtrip (P : Platform) (v : ExtNum) : result ExtNum :=
  j <- to_json P v ;; from_json j.

(** ** A platform pinned at a few arguments

    The general statements below hold for every [Platform].  Closed examples
    need one: [pinned] answers only at arguments where the result is exactly
    representable and fixed by C99 (Annex F and G) and by CPython's [cmath]:
    [exp(0) = 1], [log(1) = 0], [sin(0) = 0], [cos(0) = 1], [pow(x, 0) = 1],
    [x ** 0 = 1], [x ** 1 = x], [hypot(x, 0) = |x|], and on complex numbers
    [exp(0) = 1], [log(1) = 0], [log(-1) = pi j] (the double nearest to pi),
    [sin(0) = 0], [cos(0) = 1 - 0j], [sqrt(0) = 0].  Elsewhere it reports a
    range error.  It prints integral doubles below [10^16] only. *)

Definition is_pzero (f : float) : bool :=
  PrimFloat.eqb f 0 && F64.positive_sign f.

Definition pi_double : float := 0x1.921fb54442d18p+1%float.

Definition pinned_sign (s sign : bool) : string :=
  if s then "-" else if sign then "+" else "".

Definition pinned_digits (s sign add_dot_0 : bool) (v : Z) : string :=
  if v <? 10 ^ 16 then
    (pinned_sign s sign ++ Lit.decimal v ++ (if add_dot_0 then ".0" else ""))%string
  else "?"%string.

Definition pinned_repr (sign add_dot_0 : bool) (f : float) : string :=
  match Prim2SF f with
  | S754_zero s => pinned_digits s sign add_dot_0 0
  | S754_finite s m e =>
      if 0 <=? e then
        if e <=? 53 then pinned_digits s sign add_dot_0 (Zpos m * 2 ^ e)
        else "?"%string
      else if Zpos m mod 2 ^ (- e) =? 0
      then pinned_digits s sign add_dot_0 (Zpos m / 2 ^ (- e))
      else "?"%string
  | S754_infinity s => (pinned_sign s sign ++ "inf")%string
  | S754_nan => (pinned_sign false sign ++ "nan")%string
  end.

(** [hash] of an integral value below the modulus [2^61 - 1] is the value
    itself, [-2] for [-1]. *)
Definition pinned_hash (v : pyval) : Z :=
  match Py.as_Q v with
  | Some (Qmake n 1) => if n =? -1 then -2 else if Z.abs n <? 2 ^ 61 - 1 then n else 0
  | _ => 0
  end.

Definition pinned : Platform := {|
  math_exp := fun x => if PrimFloat.eqb x 0 then Ok 1%float else Err OverflowError;
  math_log := fun x => if PrimFloat.eqb x 1 then Ok 0%float else Err OverflowError;
  math_sin := fun x => if PrimFloat.eqb x 0 then Ok x else Err OverflowError;
  math_cos := fun x => if PrimFloat.eqb x 0 then Ok 1%float else Err OverflowError;
  math_pow := fun x y => if PrimFloat.eqb y 0 then Ok 1%float else Err OverflowError;
  float_pow := fun x n =>
    if n =? 0 then Ok 1%float else if n =? 1 then Ok x else Err OverflowError;
  complex_pow := fun z n => Err OverflowError;
  complex_abs := fun z =>
    if PrimFloat.eqb (snd z) 0 then Ok (PrimFloat.abs (fst z)) else Err OverflowError;
  cmath_exp := fun z =>
    if PrimFloat.eqb (fst z) 0 && is_pzero (snd z) then Ok (1, 0)%float
    else Err OverflowError;
  cmath_log := fun z =>
    if PrimFloat.eqb (fst z) 1 && PrimFloat.eqb (snd z) 0 then Ok (0%float, snd z)
    else if PrimFloat.eqb (fst z) (-1) && is_pzero (snd z) then Ok (0%float, pi_double)
    else Err OverflowError;
  cmath_sin := fun z =>
    if is_pzero (fst z) && is_pzero (snd z) then Ok (0, 0)%float else Err OverflowError;
  cmath_cos := fun z =>
    if is_pzero (fst z) && is_pzero (snd z) then Ok (1, -0)%float else Err OverflowError;
  cmath_sqrt := fun z =>
    if is_pzero (fst z) && is_pzero (snd z) then Ok (0, 0)%float else Err OverflowError;
  repr_double := pinned_repr;
  hash_kind := fun k =>
    match k with REAL => 11 | COMPLEX => 12 | OMEGA => 13 | BOTTOM => 14 end;
  hash_val := pinned_hash
|}.

(** * The vocabulary of the statements *)

(** ** Values used in examples *)

(** REAL zero in the mode [uf]: [ExtNum.real(0, uf)]. *)
Definition real_zero (uf : bool) : ExtNum :=
  mkExtNum REAL (if uf then PFloat 0%float else PFrac (0 # 1)) uf.

(** [ExtNum.real(2)] *)
Definition real_two : ExtNum := mkExtNum REAL (PFrac (2 # 1)) false.

(** [ExtNum.complex(1, 2, uf)] *)
Definition one_two_j (uf : bool) : ExtNum :=
  mkExtNum COMPLEX (PComplex 1 2) uf.

(** [ExtNum.omega(-1)] *)
Definition omega_minus_one : ExtNum := mkExtNum OMEGA (PFrac (-1 # 1)) false.

(** ** The data model *)

(** A REAL holds a [Fraction] in exact mode and a double in float mode, a
    COMPLEX a [complex], an OMEGA a non-zero direction that is a [Fraction]
    (exact mode), a double (float mode) or a [complex], and BOTTOM holds
    nothing. *)
Definition wf (x : ExtNum) : bool :=
  match kind x, val x with
  | REAL, PFrac _ => negb (use_float x)
  | REAL, PFloat _ => use_float x
  | COMPLEX, PComplex _ _ => true
  | OMEGA, PFrac _ => negb (use_float x) && negb (Py.eq (val x) zero)
  | OMEGA, PFloat _ => use_float x && negb (Py.eq (val x) zero)
  | OMEGA, PComplex _ _ => negb (Py.eq (val x) zero)
  | BOTTOM, PNone => true
  | _, _ => false
  end.

(** A REAL or COMPLEX whose payload equals zero. *)
Definition finite_zero (x : ExtNum) : bool :=
  is_finite x && Py.eq (val x) zero.

(** The documented representation of a REAL payload. *)
Definition real_payload_ok (r : ExtNum) : bool :=
  match kind r, val r with
  | REAL, PFrac _ => negb (use_float r)
  | REAL, PFloat _ => use_float r
  | REAL, _ => false
  | _, _ => true
  end.

(** An outcome that, when it returns, is a REAL holding a [complex]. *)
Definition breaks_real_payload (res : result ExtNum) : Prop :=
  match res with
  | Ok r => kind r = REAL /\ is_complex (val r) = true /\ real_payload_ok r = false
  | Err _ => True
  end.

(** ** Absorption *)

(** The eight forms [BOTTOM + o], [o + BOTTOM], [BOTTOM - o], [o - BOTTOM],
    [BOTTOM * o], [o * BOTTOM], [BOTTOM / o], [o / BOTTOM] all give [r].  With
    a foreign [o] on the left Python calls the reflected method of BOTTOM;
    with an [ExtNum] on the left the reflected method amounts to the direct
    one, [o.__add__(BOTTOM)]. *)
Definition eight (P : Platform) (o : operand) (r : result ExtNum) : Prop :=
  __add__ P bottom o = r /\ __radd__ P bottom o = r /\
  __sub__ P bottom o = r /\ __rsub__ P bottom o = r /\
  __mul__ bottom o = r /\ __rmul__ bottom o = r /\
  __truediv__ bottom o = r /\ __rtruediv__ bottom o = r.

(** ** The precision-mode flag *)

(** What the methods do with the flag: a result that is not BOTTOM carries
    the flag of the (left) operand [x], and BOTTOM, built by
    [ExtNum.bottom()], carries the exact-mode flag. *)
Definition mode_kept (x : ExtNum) (res : result ExtNum) : Prop :=
  match res with
  | Ok r => use_float r = if Kind_eqb (kind r) BOTTOM then false else use_float x
  | Err _ => True
  end.

(** An outcome that, when it returns, is in float mode. *)
Definition forced_float (res : result ExtNum) : Prop :=
  match res with
  | Ok r => use_float r = true
  | Err _ => True
  end.

(** ** The logarithm of an OMEGA *)

(** A logarithm [lv] rewrapped: BOTTOM when its magnitude is zero, else
    [ExtNum.omega(lv, uf)]. *)
Definition rewrap (P : Platform) (uf : bool) (lv : pyval) : result ExtNum :=
  n <- Py.abs P lv ;;
  if Py.eq n zero then Ok bottom else omega lv uf.

(** The claim as the spec words it: the principal logarithm of the
    direction itself, BOTTOM when it is exactly zero. *)
Definition log_of_direction (P : Platform) (x : ExtNum) : result ExtNum :=
  lv <- cmath1 (cmath_log P) (val x) ;;
  if Py.eq lv zero then Ok bottom else omega lv (use_float x).

(** Two outcomes agree when both raise, or both return and [==] holds. *)
Definition same_value (a b : result ExtNum) : bool :=
  match a, b with
  | Ok r1, Ok r2 =>
      match __eq__ r1 (OExt r2) with Ok t => t | Err _ => false end
  | Err _, Err _ => true
  | _, _ => false
  end.

(** ** Strings *)

(** The string holds the letter [j]. *)
Definition has_j (l : list ascii) : Prop := In "j"%char l.

(** The digits of a decimal numeral, and its value read onto [acc]. *)
Definition uint_chars (d : Decimal.uint) : list ascii :=
  list_ascii_of_string (NilEmpty.string_of_uint d).

Fixpoint uint_val (acc : Z) (d : Decimal.uint) : Z :=
  match d with
  | Decimal.Nil => acc
  | Decimal.D0 l => uint_val (10 * acc + 0) l
  | Decimal.D1 l => uint_val (10 * acc + 1) l
  | Decimal.D2 l => uint_val (10 * acc + 2) l
  | Decimal.D3 l => uint_val (10 * acc + 3) l
  | Decimal.D4 l => uint_val (10 * acc + 4) l
  | Decimal.D5 l => uint_val (10 * acc + 5) l
  | Decimal.D6 l => uint_val (10 * acc + 6) l
  | Decimal.D7 l => uint_val (10 * acc + 7) l
  | Decimal.D8 l => uint_val (10 * acc + 8) l
  | Decimal.D9 l => uint_val (10 * acc + 9) l
  end.

(** The numeral that [str] prints for the magnitude of [z]. *)
Definition numeral (z : Z) : Decimal.uint :=
  match z with
  | Z0 => Decimal.D0 Decimal.Nil
  | Zpos p | Zneg p => Pos.to_uint p
  end.

(** Both numerals that [str] prints for [q] are within the limit on the
    digits of an [int]. *)
Definition printable (q : Q) : bool :=
  negb (Lit.too_long (Lit.int_digits (Qnum q)))
  && negb (Lit.too_long (Lit.int_digits (Zpos (Qden q)))).

(** A run of digits ends at the front of [rest]. *)
Definition stops (rest : list ascii) : Prop :=
  forall acc n, Lit.digits acc n rest = (acc, n, rest).

(** ** Running [tuplehash] backwards *)

(** Rotating back by 33 bits. *)
Definition rotate_back (y : Z) : Z :=
  u64 (Z.lor (Z.shiftl y 33) (Z.shiftr y 31)).

(** The inverse of [XXPRIME_1] modulo [2^64]. *)
Definition XXPRIME_1_inv : Z := 614540362697595703.

(** The accumulator before a lane, from the accumulator after it. *)
Definition unstep (acc' lane : Z) : Z :=
  u64 (rotate_back (u64 (acc' * XXPRIME_1_inv)) - u64 lane * XXPRIME_2).

(** The last two steps of [tuplehash] on three lanes: the length is mixed
    in, and the word [2^64 - 1] (the error value [-1]) is remapped. *)
Definition length_mix3 : Z := Z.lxor 3 (Z.lxor XXPRIME_5 3527539).

Definition finish3 (acc : Z) : Z :=
  let acc := u64 (acc + length_mix3) in
  if acc =? 2 ^ 64 - 1 then 1546275796
  else if acc <? 2 ^ 63 then acc else acc - 2 ^ 64.

Definition unfinish3 (t : Z) : Z := u64 (t - length_mix3).

(** The accumulator before the last lane, from the mixed accumulator. *)
Definition before_last (lane t : Z) : Z := unstep (unfinish3 t) lane.

(** ** Outcomes *)

(** An outcome that, when it returns, satisfies the data model. *)
Definition wf_result (res : result ExtNum) : Prop :=
  match res with
  | Ok r => wf r = true
  | Err _ => True
  end.

(** [ExtNum.real(q)] and [Ω(q)] in exact mode. *)
Definition real_exact (q : Q) : ExtNum := mkExtNum REAL (PFrac q) false.
Definition omega_exact (q : Q) : ExtNum := mkExtNum OMEGA (PFrac q) false.

(** An outcome that returns an exact-mode REAL whose payload is the
    rational [v], in lowest terms. *)
Definition returns_exact (res : result ExtNum) (v : Q) : Prop :=
  match res with
  | Ok r =>
      kind r = REAL /\ use_float r = false /\
      exists s, val r = PFrac s /\ Qeq s v /\ Qred s = s
  | Err _ => False
  end.

(** A finite right operand [y] whose payload the product [self.val *
    other.val] does not widen beyond what the kind and mode of [x] hold. *)
Definition keeps_representation (x y : ExtNum) : bool :=
  match kind x, kind y with
  | REAL, COMPLEX => false
  | REAL, REAL => use_float x || negb (use_float y)
  | _, _ => true
  end.

Definition real_or_omega (k : Kind) : bool :=
  match k with REAL | OMEGA => true | _ => false end.

(** ** Platforms *)

(** [float(repr(f))] is [f]: what the shortest-repr printer guarantees. *)
Definition reads_back (P : Platform) (f : float) : Prop :=
  Lit.float_of_string (repr_double P false true f) = Ok f.



(** ** Serialized records *)

(** The document [{"kind": k, "use_float": uf, "val": v}]. *)
Definition record (k : string) (uf : bool) (v : string) : json :=
  JObj [("kind"%string, JStr k); ("use_float"%string, JBool uf);
        ("val"%string, JStr v)].

(** * Properties *)

(** ** Results and kinds *)

Lemma bind_Ok_inv {A B} (m : result A) (f : A -> result B) (b : B) :
  bind m f = Ok b -> exists a, m = Ok a /\ f a = Ok b.
Proof. destruct m as [a|e]; simpl; intro H; [eauto | discriminate]. Qed.

Lemma fmap_Ok_inv {A B} (g : A -> B) (m : result A) (b : B) :
  fmap g m = Ok b -> exists a, m = Ok a /\ b = g a.
Proof.
  unfold fmap. intro H. apply bind_Ok_inv in H as (a & Hm & Ha).
  exists a. split; [assumption | congruence].
Qed.


Lemma Kind_eqb_neq (a b : Kind) : Kind_eqb a b = false <-> a <> b.
Proof. destruct a, b; simpl; split; congruence. Qed.

Lemma Kind_eqb_refl (a : Kind) : Kind_eqb a a = true.
Proof. destruct a; reflexivity. Qed.

(** ** What the constructors build *)

Lemma real_Ok_inv (x : pyval) (uf : bool) (r : ExtNum) :
  real x uf = Ok r ->
  kind r = REAL /\ use_float r = uf /\
  (if uf then exists f, Py.float_ x = Ok f /\ val r = PFloat f
   else exists q, Py.Fraction_ x = Ok q /\ val r = PFrac q).
Proof.
  unfold real. intro H. apply bind_Ok_inv in H as (v & Hv & Hr).
  injection Hr as <-. simpl. repeat split.
  destruct uf; apply fmap_Ok_inv in Hv as (a & Ha & ->); eauto.
Qed.

Lemma complex_Ok_inv (re im : pyval) (uf : bool) (r : ExtNum) :
  complex re im uf = Ok r ->
  kind r = COMPLEX /\ use_float r = uf /\ is_complex (val r) = true.
Proof.
  unfold complex. intro H. apply bind_Ok_inv in H as (v & Hv & Hr).
  injection Hr as <-. simpl. repeat split.
  destruct uf.
  - apply bind_Ok_inv in Hv as (a & _ & Hv).
    apply bind_Ok_inv in Hv as (b & _ & Hv). injection Hv as <-. reflexivity.
  - apply bind_Ok_inv in Hv as (a & _ & Hv).
    apply bind_Ok_inv in Hv as (b & _ & Hv).
    apply bind_Ok_inv in Hv as (a' & _ & Hv).
    apply bind_Ok_inv in Hv as (b' & _ & Hv). injection Hv as <-. reflexivity.
Qed.

Lemma omega_Ok_inv (a : pyval) (uf : bool) (r : ExtNum) :
  omega a uf = Ok r ->
  kind r = OMEGA /\ use_float r = uf /\ Py.eq (val r) zero = false.
Proof.
  unfold omega. intro H. apply bind_Ok_inv in H as (v & Hv & Hr).
  fold zero in Hr. destruct (Py.eq v zero) eqn:E; [discriminate|].
  injection Hr as <-. simpl. auto.
Qed.

(** ** BOTTOM under the four arithmetic operations *)

Lemma coerce_ExtNum (self x : ExtNum) : _coerce self (OExt x) = Ok x.
Proof. reflexivity. Qed.

Section Absorption.

Variable P : Platform.

Lemma add_sub_bottom_l (o : operand) (s : Z) :
  _add_sub P bottom o s = bind (_coerce bottom o) (fun _ => Ok bottom).
Proof. unfold _add_sub. destruct (_coerce bottom o); reflexivity. Qed.

Lemma add_sub_bottom_r (x : ExtNum) (s : Z) :
  _add_sub P x (OExt bottom) s = Ok bottom.
Proof.
  unfold _add_sub. simpl. rewrite orb_true_r. reflexivity.
Qed.

Lemma mul_bottom_l (o : operand) :
  __mul__ bottom o = bind (_coerce bottom o) (fun _ => Ok bottom).
Proof. unfold __mul__. destruct (_coerce bottom o); reflexivity. Qed.

Lemma mul_bottom_r (x : ExtNum) : __mul__ x (OExt bottom) = Ok bottom.
Proof. unfold __mul__. simpl. rewrite orb_true_r. reflexivity. Qed.

Lemma truediv_bottom_l (o : operand) :
  __truediv__ bottom o = bind (_coerce bottom o) (fun _ => Ok bottom).
Proof. unfold __truediv__. destruct (_coerce bottom o); reflexivity. Qed.

Lemma truediv_bottom_r (x : ExtNum) : __truediv__ x (OExt bottom) = Ok bottom.
Proof. unfold __truediv__. simpl. rewrite orb_true_r. reflexivity. Qed.

(** C9. BOTTOM absorbs under addition, subtraction, multiplication and
    division, on either side: with any [ExtNum] [x] all eight forms return
    BOTTOM, and so they do with any foreign value that coerces (one that does
    not coerce raises the coercion's error in all eight). *)
Theorem C9_bottom_absorbs :
  (forall x : ExtNum,
      eight P (OExt x) (Ok bottom) /\
      __add__ P x (OExt bottom) = Ok bottom /\
      __sub__ P x (OExt bottom) = Ok bottom /\
      __mul__ x (OExt bottom) = Ok bottom /\
      __truediv__ x (OExt bottom) = Ok bottom) /\
  (forall v : pyval,
      match _coerce bottom (OVal v) with
      | Ok _ => eight P (OVal v) (Ok bottom)
      | Err e => eight P (OVal v) (Err e)
      end).
Proof.
  split.
  - intro x. unfold eight, __add__, __sub__, __radd__, __rsub__, __rmul__,
      __rtruediv__, __add__, __sub__.
    rewrite !add_sub_bottom_l, mul_bottom_l, truediv_bottom_l, !coerce_ExtNum.
    simpl. rewrite !add_sub_bottom_r, mul_bottom_r, truediv_bottom_r.
    repeat split.
  - intro v. unfold eight, __add__, __sub__, __radd__, __rsub__, __rmul__,
      __rtruediv__, __add__, __sub__.
    rewrite !add_sub_bottom_l, mul_bottom_l, truediv_bottom_l.
    destruct (_coerce bottom (OVal v)) as [y|e]; simpl.
    + rewrite !add_sub_bottom_r, truediv_bottom_r. repeat split.
    + repeat split.
Qed.

End Absorption.

(** ** Exponentiation of BOTTOM *)

(** C10. Exponentiation does not absorb BOTTOM: with the integer exponent 0
    the result is REAL one in exact mode, with any other integer exponent
    [None ** n] raises TypeError. *)
Theorem C10_pow_bottom (P : Platform) (n : Z) :
  __pow__ P bottom (PInt n) =
  if n =? 0 then Ok (mkExtNum REAL (PFrac (1 # 1)) false) else Err TypeError.
Proof.
  unfold __pow__. simpl. destruct (n =? 0); reflexivity.
Qed.

(** ** Multiplication by a finite zero *)

Lemma real_0 (uf : bool) : real (PInt 0) uf = Ok (real_zero uf).
Proof. destruct uf; reflexivity. Qed.

(** C7. When neither operand is BOTTOM and a finite operand has a payload
    equal to zero, the product is REAL zero in the left operand's mode, also
    when the other operand is OMEGA: [0 * Ω(a)] and [Ω(a) * 0] are REAL zero
    for every direction [a] that [omega] accepts. *)
Theorem C7_mul_zero :
  (forall (x : ExtNum) (o : operand) (y : ExtNum),
      _coerce x o = Ok y ->
      kind x <> BOTTOM -> kind y <> BOTTOM ->
      finite_zero x || finite_zero y = true ->
      __mul__ x o = Ok (real_zero (use_float x))) /\
  (forall (a : pyval) (uf : bool) (w : ExtNum),
      omega a uf = Ok w ->
      __mul__ w (OVal (PInt 0)) = Ok (real_zero uf) /\
      __mul__ (real_zero uf) (OExt w) = Ok (real_zero uf)).
Proof.
  assert (G : forall (x : ExtNum) (o : operand) (y : ExtNum),
      _coerce x o = Ok y ->
      kind x <> BOTTOM -> kind y <> BOTTOM ->
      finite_zero x || finite_zero y = true ->
      __mul__ x o = Ok (real_zero (use_float x))).
  { intros x o y Hc Hx Hy Hz. unfold __mul__. rewrite Hc. simpl.
    apply Kind_eqb_neq in Hx, Hy. rewrite Hx, Hy. simpl.
    unfold finite_zero in Hz. rewrite Hz. apply real_0. }
  split; [exact G|].
  intros a uf w Hw. apply omega_Ok_inv in Hw as (Hk & Hu & _). split.
  - rewrite (G w (OVal (PInt 0)) (real_zero (use_float w))).
    + now rewrite Hu.
    + simpl. apply real_0.
    + congruence.
    + destruct (use_float w); discriminate.
    + rewrite orb_comm. destruct (use_float w); reflexivity.
  - rewrite (G (real_zero uf) (OExt w) w).
    + reflexivity.
    + reflexivity.
    + discriminate.
    + congruence.
    + destruct uf; reflexivity.
Qed.

Lemma C7_mul_zero_witness :
  __mul__ (real_zero false) (OExt (mkExtNum OMEGA (PFrac (3 # 1)) false))
  = Ok (real_zero false).
Proof.
  apply (proj1 C7_mul_zero (real_zero false)
           (OExt (mkExtNum OMEGA (PFrac (3 # 1)) false))
           (mkExtNum OMEGA (PFrac (3 # 1)) false)).
  - reflexivity.
  - discriminate.
  - discriminate.
  - reflexivity.
Defined.

(** ** Division by a finite zero *)

Lemma real_wf (x : pyval) (uf : bool) (r : ExtNum) : real x uf = Ok r -> wf r = true.
Proof.
  intro H. apply real_Ok_inv in H as (Hk & Hu & Hv). unfold wf. rewrite Hk, Hu.
  destruct uf; destruct Hv as (a & _ & ->); reflexivity.
Qed.

Lemma complex_wf (re im : pyval) (uf : bool) (r : ExtNum) :
  complex re im uf = Ok r -> wf r = true.
Proof.
  intro H. apply complex_Ok_inv in H as (Hk & _ & Hv). unfold wf. rewrite Hk.
  destruct (val r); try discriminate. reflexivity.
Qed.

Lemma omega_wf (a : pyval) (uf : bool) (r : ExtNum) :
  omega a uf = Ok r -> wf r = true.
Proof.
  unfold omega. intro H. apply bind_Ok_inv in H as (v & Hv & Hr).
  fold zero in Hr. destruct (Py.eq v zero) eqn:E; [discriminate|].
  injection Hr as <-. unfold wf. simpl. rewrite E.
  destruct uf, a; simpl in Hv; try discriminate;
    first [ injection Hv as <- | apply fmap_Ok_inv in Hv as (b & _ & ->) ];
    reflexivity.
Qed.

Lemma bottom_wf : wf bottom = true.
Proof. reflexivity. Qed.




(** Off the data model the division does raise, and the methods themselves
    return such values.  [real(1) * real(inf, use_float=True)] is a REAL
    holding [inf] under the exact-mode flag; dividing it by zero calls
    [omega(inf, False)], where [Fraction(inf)] raises OverflowError.  An OMEGA
    record with a zero direction is decoded by [from_json] as it stands;
    dividing it by zero runs into the guard of [omega]. *)
Example div_by_zero_off_the_data_model :
  __mul__ (mkExtNum REAL (PFrac (1 # 1)) false)
    (OExt (mkExtNum REAL (PFloat infinity) true))
  = Ok (mkExtNum REAL (PFloat infinity) false) /\
  wf (mkExtNum REAL (PFloat infinity) false) = false /\
  __truediv__ (mkExtNum REAL (PFloat infinity) false) (OVal (PInt 0))
  = Err OverflowError /\
  from_json (JObj [("kind"%string, JStr "OMEGA"); ("use_float"%string, JBool false);
                   ("val"%string, JStr "0")])
  = Ok (mkExtNum OMEGA (PFrac (0 # 1)) false) /\
  __truediv__ (mkExtNum OMEGA (PFrac (0 # 1)) false) (OVal (PInt 0))
  = Err ValueError.
Proof. repeat split. Qed.


(** ** Ordering *)

Section Ordering.

Variable P : Platform.

(** [<] and [>=] build the comparison key of the left operand first: they
    raise ValueError on a BOTTOM or COMPLEX left operand whatever the right
    operand is. *)
Lemma lt_guard_left (x : ExtNum) (o : operand) :
  kind x = BOTTOM \/ kind x = COMPLEX ->
  __lt__ P x o = Err ValueError /\ __ge__ P x o = Err ValueError.
Proof.
  intro H. unfold __ge__, __lt__, _cmp_key.
  destruct H as [-> | ->]; split; reflexivity.
Qed.

(** And on a BOTTOM or COMPLEX right operand, when the left one has a key. *)
Lemma lt_guard_right (x y : ExtNum) (k : Z * pyval) :
  _cmp_key P x = Ok k ->
  kind y = BOTTOM \/ kind y = COMPLEX ->
  __lt__ P x (OExt y) = Err ValueError /\ __ge__ P x (OExt y) = Err ValueError.
Proof.
  intros Hk H. unfold __ge__, __lt__. rewrite Hk. simpl. unfold _cmp_key.
  destruct H as [-> | ->]; split; reflexivity.
Qed.

Lemma one_two_j_built (uf : bool) :
  complex (PInt 1) (PInt 2) uf = Ok (one_two_j uf).
Proof. destruct uf; reflexivity. Qed.

(** C4, at the inputs where the code departs from it: [<=] tests equality
    first and returns True without building a comparison key, and [>] is its
    negation, so [BOTTOM <= BOTTOM] is True and [BOTTOM > BOTTOM] is False, and
    so for a COMPLEX value compared with itself; on the same operands [<] and
    [>=] raise ValueError. *)
Theorem C4_le_gt_equal_operands :
  __le__ P bottom (OExt bottom) = Ok true /\
  __gt__ P bottom (OExt bottom) = Ok false /\
  __lt__ P bottom (OExt bottom) = Err ValueError /\
  __ge__ P bottom (OExt bottom) = Err ValueError /\
  (forall uf,
      __le__ P (one_two_j uf) (OExt (one_two_j uf)) = Ok true /\
      __gt__ P (one_two_j uf) (OExt (one_two_j uf)) = Ok false /\
      __lt__ P (one_two_j uf) (OExt (one_two_j uf)) = Err ValueError /\
      __ge__ P (one_two_j uf) (OExt (one_two_j uf)) = Err ValueError).
Proof.
  repeat split; reflexivity.
Qed.

End Ordering.

(** ** Kind and payload *)

(** C3, where the code departs from it: [sin] and [cos] of a REAL call
    [cmath] and store its complex result under the kind REAL, in both modes
    and whatever the platform returns; on [pinned], [sin] and [cos] of exact
    REAL zero are REAL values holding [0j] and [1 - 0j]. *)
Theorem C3_sin_cos_real_payload (P : Platform) (p : pyval) (uf : bool) :
  breaks_real_payload (sin P (mkExtNum REAL p uf)) /\
  breaks_real_payload (cos P (mkExtNum REAL p uf)) /\
  sin pinned (real_zero false) = Ok (mkExtNum REAL (PComplex 0 0) false) /\
  cos pinned (real_zero false) = Ok (mkExtNum REAL (PComplex 1 (-0)) false).
Proof.
  unfold sin, cos, breaks_real_payload, cmath1. cbn [kind val use_float].
  repeat split; try reflexivity.
  - destruct (Py.complex_ p) as [c|e]; simpl; [|exact I].
    destruct (cmath_sin P c) as [s|e]; simpl; [|exact I]. auto.
  - destruct (Py.complex_ p) as [c|e]; simpl; [|exact I].
    destruct (cmath_cos P c) as [s|e]; simpl; [|exact I]. auto.
Qed.

(** The sibling functions go through [ExtNum.real]: what [exp] and [sqrt]
    return for a REAL keeps the documented representation. *)
Lemma exp_real_payload (P : Platform) (p : pyval) (uf : bool) (r : ExtNum) :
  exp P (mkExtNum REAL p uf) = Ok r -> real_payload_ok r = true.
Proof.
  unfold exp. simpl. intro H. apply bind_Ok_inv in H as (e & _ & H).
  apply real_wf in H as Hw. apply real_Ok_inv in H as (Hk & _ & _).
  unfold wf in Hw. unfold real_payload_ok. rewrite Hk in *.
  destruct (val r); easy.
Qed.

(** ** Number literals never hold the letter [j] *)

Section LetterJ.

Local Open Scope char_scope.

Lemma has_j_tail (c : ascii) (r : list ascii) :
  has_j (c :: r) -> c <> "j" -> has_j r.
Proof. intros [H | H] Hc; [congruence | exact H]. Qed.

Lemma skip_spaces_j (l : list ascii) : has_j l -> has_j (Lit.skip_spaces l).
Proof.
  induction l as [|c r IH]; simpl; intro H; [exact H|].
  destruct (Lit.is_space c) eqn:E; [|exact H].
  apply IH, (has_j_tail c); [exact H|]. intros ->. discriminate E.
Qed.

Lemma skip_re_spaces_j (l : list ascii) : has_j l -> has_j (Lit.skip_re_spaces l).
Proof.
  induction l as [|c r IH]; simpl; intro H; [exact H|].
  destruct (Lit.is_re_space c) eqn:E; [|exact H].
  apply IH, (has_j_tail c); [exact H|]. intros ->. discriminate E.
Qed.

Lemma eat_j (ch : ascii) (l r : list ascii) :
  ch <> "j" -> Lit.eat ch l = Some r -> has_j l -> has_j r.
Proof.
  intros Hch. destruct l as [|c l]; simpl; [discriminate|].
  destruct (Ascii.eqb c ch) eqn:E; [|discriminate].
  intros [= <-] H. apply Ascii.eqb_eq in E. subst c.
  now apply (has_j_tail ch).
Qed.

Lemma parse_sign_j (l : list ascii) : has_j l -> has_j (snd (Lit.parse_sign l)).
Proof.
  intro H. unfold Lit.parse_sign.
  destruct (Lit.eat "-" l) eqn:E1; simpl.
  - apply (eat_j "-" l); [discriminate | exact E1 | exact H].
  - destruct (Lit.eat "+" l) eqn:E2; simpl; [|exact H].
    apply (eat_j "+" l); [discriminate | exact E2 | exact H].
Qed.

Lemma digits_j (l : list ascii) (acc : Z) (n : nat) :
  has_j l -> has_j (snd (Lit.digits acc n l)).
Proof.
  revert acc n. induction l as [|c r IH]; intros acc n H; simpl; [exact H|].
  destruct (Lit.digit_val c) eqn:Ed.
  - apply IH, (has_j_tail c); [exact H|]. intros ->. discriminate Ed.
  - destruct (Ascii.eqb c "_" && negb (Nat.eqb n 0) && Lit.starts_with_digit r)
      eqn:Eu; [|exact H].
    apply IH, (has_j_tail c); [exact H|]. intros ->. discriminate Eu.
Qed.

Lemma decimals_j (l : list ascii) (ip : Z) :
  has_j l -> has_j (snd (Lit.decimals ip l)).
Proof.
  intro H. unfold Lit.decimals. destruct (Lit.eat "." l) eqn:E; [|exact H].
  apply digits_j, (eat_j "." l); [discriminate | exact E | exact H].
Qed.

Lemma exponent_j (l : list ascii) : has_j l -> has_j (snd (Lit.exponent l)).
Proof.
  intro H. unfold Lit.exponent. destruct l as [|c r]; [exact H|].
  destruct (Ascii.eqb (Lit.lower c) "e") eqn:E; [|exact H].
  assert (Hr : has_j r).
  { apply (has_j_tail c); [exact H|]. intros ->. discriminate E. }
  pose proof (digits_j _ 0%Z 0%nat (parse_sign_j r Hr)) as Hd.
  destruct (Lit.parse_sign r) as [neg r1]. simpl in Hd.
  destruct (Lit.digits 0 0 r1) as [[ex k] r2]. simpl in Hd.
  destruct (Nat.eqb k 0); [exact H | exact Hd].
Qed.

Lemma strip_prefix_j (pat l r : list ascii) :
  ~ In "j" pat -> Lit.strip_prefix pat l = Some r -> has_j l -> has_j r.
Proof.
  revert l. induction pat as [|p pat IH]; intros l Hp; simpl.
  - now intros [= <-].
  - destruct l as [|c l]; [discriminate|].
    destruct (Ascii.eqb (Lit.lower c) p) eqn:E; [|discriminate].
    intros Hs H. apply (IH l); [now intros Hin; apply Hp; right | exact Hs |].
    apply (has_j_tail c); [exact H|]. intros ->.
    apply Ascii.eqb_eq in E. apply Hp. left. now rewrite <- E.
Qed.

Lemma special_j (l r : list ascii) (sf : spec_float) :
  Lit.special l = Some (sf, r) -> has_j l -> has_j r.
Proof.
  unfold Lit.special. intros Hs H.
  destruct (Lit.strip_prefix _ l) eqn:E1.
  - injection Hs as _ <-. revert E1 H. apply strip_prefix_j.
    simpl. intuition discriminate.
  - destruct (Lit.strip_prefix ["i"; "n"; "f"] l) eqn:E2.
    + injection Hs as _ <-. revert E2 H. apply strip_prefix_j.
      simpl. intuition discriminate.
    + destruct (Lit.strip_prefix ["n"; "a"; "n"] l) eqn:E3; [|discriminate].
      injection Hs as _ <-. revert E3 H. apply strip_prefix_j.
      simpl. intuition discriminate.
Qed.

Lemma all_space_j (l : list ascii) : has_j l -> Lit.all_space l = false.
Proof.
  induction l as [|c r IH]; simpl; [intros []|].
  intros [H | H].
  - now subst c.
  - rewrite (IH H). apply andb_false_r.
Qed.

Lemma all_re_space_j (l : list ascii) : has_j l -> Lit.all_re_space l = false.
Proof.
  induction l as [|c r IH]; simpl; [intros []|].
  intros [H | H].
  - now subst c.
  - rewrite (IH H). apply andb_false_r.
Qed.

(** [Fraction(s)] raises ValueError on every string that holds a [j]. *)
Lemma Fraction_of_chars_j (l0 : list ascii) :
  has_j l0 -> Lit.Fraction_of_chars l0 = Err ValueError.
Proof.
  intro H. unfold Lit.Fraction_of_chars.
  pose proof (parse_sign_j _ (skip_re_spaces_j _ H)) as H1.
  destruct (Lit.parse_sign (Lit.skip_re_spaces l0)) as [neg l]. simpl in H1.
  match goal with |- (if negb ?b then _ else _) = _ => destruct b end;
    [|reflexivity]. simpl.
  pose proof (digits_j _ 0%Z 0%nat H1) as H2.
  destruct (Lit.digits 0 0 l) as [[num k0] l1]. simpl in H2.
  destruct (Lit.eat "/" l1) as [l2|] eqn:E.
  - assert (H3 : has_j l2) by (apply (eat_j "/" l1); easy).
    pose proof (digits_j _ 0%Z 0%nat H3) as H4.
    destruct (Lit.digits 0 0 l2) as [[den k] l3]. simpl in H4.
    rewrite (all_re_space_j _ H4). simpl. now rewrite orb_true_r.
  - pose proof (decimals_j _ num H2) as H3.
    destruct (Lit.decimals num l1) as [[m kf] l2]. simpl in H3.
    pose proof (exponent_j _ H3) as H4.
    destruct (Lit.exponent l2) as [[ex ke] l3]. simpl in H4.
    now rewrite (all_re_space_j _ H4).
Qed.

(** And so does [float(s)]. *)
Lemma float_of_chars_j (l0 : list ascii) :
  has_j l0 -> Lit.float_of_chars l0 = Err ValueError.
Proof.
  intro H. unfold Lit.float_of_chars.
  pose proof (parse_sign_j _ (skip_spaces_j _ H)) as H1.
  destruct (Lit.parse_sign (Lit.skip_spaces l0)) as [neg l]. simpl in H1.
  destruct (Lit.special l) as [[sf r]|] eqn:Es.
  - now rewrite (all_space_j _ (special_j _ _ _ Es H1)).
  - pose proof (digits_j _ 0%Z 0%nat H1) as H2.
    destruct (Lit.digits 0 0 l) as [[ip ki] l1]. simpl in H2.
    pose proof (decimals_j _ ip H2) as H3.
    destruct (Lit.decimals ip l1) as [[m kf] l2]. simpl in H3.
    destruct (Nat.eqb (ki + kf) 0); [reflexivity|].
    pose proof (exponent_j _ H3) as H4.
    destruct (Lit.exponent l2) as [[ex ke] l3]. simpl in H4.
    now rewrite (all_space_j _ H4).
Qed.

Lemma chars_app (a b : string) :
  list_ascii_of_string (a ++ b) = (list_ascii_of_string a ++ list_ascii_of_string b)%list.
Proof. induction a as [|c a IH]; simpl; [reflexivity | now rewrite IH]. Qed.

(** [str] of a complex always holds a [j]. *)
Lemma str_complex_j (P : Platform) (c : cplx) :
  has_j (list_ascii_of_string (Py.str_complex P c)).
Proof.
  unfold Py.str_complex, has_j. destruct c as [re im].
  destruct (_ && _); rewrite !chars_app, ?in_app_iff; simpl; tauto.
Qed.

End LetterJ.

(** ** Round trip through the serialized record *)

(** C1, where the code departs from it: an OMEGA whose direction is a
    complex number is encoded with [str] of the complex ([1j], [(1+2j)]), which
    neither [Fraction] nor [float] reads back: decoding its encoding raises
    ValueError, in both modes, for every direction and on every platform. *)
Theorem C1_omega_complex_roundtrip (P : Platform) (re im : float) (uf : bool) :
  roundtrip P (mkExtNum OMEGA (PComplex re im) uf) = Err ValueError.
Proof.
  unfold roundtrip, to_json, from_json. simpl.
  unfold json_number, json_float, json_Fraction,
    Lit.float_of_string, Lit.Fraction_of_string.
  pose proof (str_complex_j P (re, im)) as H.
  destruct uf; simpl in H |- *.
  - now rewrite (float_of_chars_j _ H).
  - now rewrite (Fraction_of_chars_j _ H).
Qed.

(** The same direction is accepted by the constructor, and values whose
    payload is a [Fraction] do come back ([pinned] is not consulted for them). *)
Example omega_1j_constructible :
  omega (PComplex 0 1) false = Ok (mkExtNum OMEGA (PComplex 0 1) false).
Proof. reflexivity. Qed.

Example roundtrip_real_3 (P : Platform) :
  roundtrip P (mkExtNum REAL (PFrac (3 # 1)) false)
  = Ok (mkExtNum REAL (PFrac (3 # 1)) false).
Proof. reflexivity. Qed.

Example roundtrip_omega_exact (P : Platform) :
  roundtrip P (mkExtNum OMEGA (PFrac (-7 # 2)) false)
  = Ok (mkExtNum OMEGA (PFrac (-7 # 2)) false).
Proof. reflexivity. Qed.

Example roundtrip_bottom (P : Platform) : roundtrip P bottom = Ok bottom.
Proof. reflexivity. Qed.

(** *** Values whose payload is a [Fraction] do come back *)

Lemma digits_uint (d : Decimal.uint) (rest : list ascii) :
  stops rest ->
  forall acc n,
    Lit.digits acc n (uint_chars d ++ rest)
    = (uint_val acc d, (n + Decimal.nb_digits d)%nat, rest).
Proof.
  intro Hs. unfold uint_chars.
  induction d; intros acc n; simpl;
    try (rewrite IHd; f_equal; f_equal; lia).
  rewrite Hs. f_equal. f_equal. lia.
Qed.

Lemma uint_val_acc (d : Decimal.uint) (acc : positive) :
  uint_val (Zpos acc) d = Zpos (Pos.of_uint_acc d acc).
Proof.
  revert acc. induction d; intro acc; cbn [uint_val Pos.of_uint_acc];
    try reflexivity; rewrite <- IHd; f_equal; lia.
Qed.

Lemma uint_val_of_uint (d : Decimal.uint) : uint_val 0 d = Z.of_N (Pos.of_uint d).
Proof.
  induction d; simpl; try reflexivity; try exact IHd;
    apply (uint_val_acc d).
Qed.

Lemma uint_val_to_uint (p : positive) : uint_val 0 (Pos.to_uint p) = Zpos p.
Proof. now rewrite uint_val_of_uint, DecimalPos.Unsigned.of_to. Qed.

Lemma stops_nil : stops [].
Proof. intros acc n. reflexivity. Qed.

Lemma stops_slash (r : list ascii) : stops ("/"%char :: r).
Proof. intros acc n. reflexivity. Qed.

(** A numeral that is not empty starts with a digit. *)
Lemma uint_chars_head (d : Decimal.uint) :
  d <> Decimal.Nil ->
  exists c r v, uint_chars d = c :: r /\ Lit.digit_val c = Some v.
Proof.
  intro H. unfold uint_chars.
  destruct d; try congruence; simpl; do 3 eexists; split; reflexivity.
Qed.

Lemma digit_not (c ch : ascii) (v : Z) :
  Lit.digit_val c = Some v -> Lit.digit_val ch = None -> Ascii.eqb c ch = false.
Proof.
  intros H1 H2. destruct (Ascii.eqb_spec c ch); [congruence | reflexivity].
Qed.

Lemma digit_not_space (c : ascii) (v : Z) :
  Lit.digit_val c = Some v -> Lit.is_re_space c = false.
Proof.
  unfold Lit.digit_val, Lit.is_re_space, Lit.is_space. intro H.
  destruct ((48 <=? Z.of_nat (nat_of_ascii c)) && (Z.of_nat (nat_of_ascii c) <=? 57)) eqn:E;
    [|discriminate].
  apply andb_prop in E as (E1 & E2). apply Z.leb_le in E1, E2.
  replace (Nat.eqb (nat_of_ascii c) 32) with false
    by (symmetry; apply Nat.eqb_neq; lia).
  replace (Nat.leb (nat_of_ascii c) 13) with false
    by (symmetry; apply Nat.leb_gt; lia).
  replace (Nat.leb (nat_of_ascii c) 31) with false
    by (symmetry; apply Nat.leb_gt; lia).
  now rewrite !andb_false_r.
Qed.

Lemma nb_digits_pos (d : Decimal.uint) :
  d <> Decimal.Nil -> Nat.eqb (Decimal.nb_digits d) 0 = false.
Proof. destruct d; simpl; congruence. Qed.

(** [Fraction] reads an optional minus sign, a numeral and an optional
    denominator, each within the limit on digits, as the fraction they
    denote, in lowest terms. *)
Lemma Fraction_of_numeral (neg : bool) (dn : Decimal.uint) (dd : option Decimal.uint) :
  dn <> Decimal.Nil -> Lit.too_long (Decimal.nb_digits dn) = false ->
  match dd with
  | Some d =>
      d <> Decimal.Nil /\ uint_val 0 d <> 0 /\
      Lit.too_long (Decimal.nb_digits d) = false
  | None => True
  end ->
  Lit.Fraction_of_chars
    ((if neg then ["-"%char] else []) ++ uint_chars dn
       ++ match dd with Some d => "/"%char :: uint_chars d | None => [] end)
  = Ok (Qred (Qmake (if neg then - uint_val 0 dn else uint_val 0 dn)
                    (match dd with Some d => Z.to_pos (uint_val 0 d) | None => 1%positive end))).
Proof.
  intros Hn Ln Hd.
  destruct (uint_chars_head dn Hn) as (c & r & v & Ec & Hc).
  assert (Hs : Lit.parse_sign (Lit.skip_re_spaces
              ((if neg then ["-"%char] else []) ++ uint_chars dn
                 ++ match dd with Some d => "/"%char :: uint_chars d | None => [] end))
          = (neg, uint_chars dn
                 ++ match dd with Some d => "/"%char :: uint_chars d | None => [] end)).
  { destruct neg; simpl.
    - reflexivity.
    - rewrite Ec. simpl. rewrite (digit_not_space c v Hc).
      unfold Lit.parse_sign, Lit.eat.
      now rewrite (digit_not c "-" v Hc), (digit_not c "+" v Hc). }
  unfold Lit.Fraction_of_chars. rewrite Hs.
  assert (Hl : Lit.starts_with_digit
                 (uint_chars dn
                    ++ match dd with Some d => "/"%char :: uint_chars d | None => [] end) = true).
  { rewrite Ec. simpl. now rewrite Hc. }
  rewrite Hl. cbn [orb negb].
  destruct dd as [d|].
  - destruct Hd as (Hd & Hz & Ld).
    rewrite digits_uint by apply stops_slash.
    cbn [Lit.eat]. change (Ascii.eqb "/" "/") with true. cbn iota.
    rewrite <- (List.app_nil_r (uint_chars d)), digits_uint by apply stops_nil.
    rewrite !Nat.add_0_l, (nb_digits_pos d Hd), Ln, Ld.
    cbn [Lit.all_re_space forallb negb orb].
    apply Z.eqb_neq in Hz. rewrite Hz. reflexivity.
  - rewrite List.app_nil_r.
    rewrite <- (List.app_nil_r (uint_chars dn)), digits_uint by apply stops_nil.
    rewrite Nat.add_0_l.
    cbn [Lit.eat Lit.decimals Lit.exponent Lit.all_re_space forallb negb].
    rewrite Ln. cbn. rewrite Z.mul_1_r. reflexivity.
Qed.

Lemma numeral_spec (z : Z) :
  numeral z <> Decimal.Nil /\ uint_val 0 (numeral z) = Z.abs z /\
  Lit.int_digits z = Decimal.nb_digits (numeral z) /\
  list_ascii_of_string (Lit.decimal z)
  = ((if z <? 0 then ["-"%char] else []) ++ uint_chars (numeral z))%list.
Proof.
  destruct z as [|p|p]; simpl.
  - repeat split. discriminate.
  - pose proof (DecimalPos.Unsigned.to_uint_nonnil p) as Hp.
    repeat split; [exact Hp | apply uint_val_to_uint |].
    unfold Lit.decimal, uint_chars. simpl.
    destruct (Pos.to_uint p); [congruence | reflexivity ..].
  - pose proof (DecimalPos.Unsigned.to_uint_nonnil p) as Hp.
    repeat split; [exact Hp | apply uint_val_to_uint |].
    unfold Lit.decimal, uint_chars. simpl.
    destruct (Pos.to_uint p); [congruence | reflexivity ..].
Qed.

(** Beyond the limit [Fraction] refuses a numeral. *)
Lemma Fraction_of_long_numeral (dn : Decimal.uint) :
  dn <> Decimal.Nil -> Lit.too_long (Decimal.nb_digits dn) = true ->
  Lit.Fraction_of_chars (uint_chars dn) = Err ValueError.
Proof.
  intros Hn Ln.
  destruct (uint_chars_head dn Hn) as (c & r & v & Ec & Hc).
  assert (Hs : Lit.parse_sign (Lit.skip_re_spaces (uint_chars dn))
               = (false, uint_chars dn)).
  { rewrite Ec. simpl. rewrite (digit_not_space c v Hc).
    unfold Lit.parse_sign, Lit.eat.
    now rewrite (digit_not c "-" v Hc), (digit_not c "+" v Hc). }
  unfold Lit.Fraction_of_chars. rewrite Hs.
  assert (Hl : Lit.starts_with_digit (uint_chars dn) = true).
  { rewrite Ec. simpl. now rewrite Hc. }
  rewrite Hl. cbn [orb negb].
  rewrite <- (List.app_nil_r (uint_chars dn)), digits_uint by apply stops_nil.
  rewrite Nat.add_0_l.
  cbn [Lit.eat Lit.decimals Lit.exponent Lit.all_re_space forallb negb].
  now rewrite Ln.
Qed.

Lemma str_int_ok (z : Z) :
  Lit.too_long (Lit.int_digits z) = false -> Lit.str_int z = Ok (Lit.decimal z).
Proof. intro H. unfold Lit.str_int. now rewrite H. Qed.

(** Beyond the limit [str(q)] raises ValueError. *)
Lemma str_Fraction_long (q : Q) :
  printable q = false -> Lit.str_Fraction q = Err ValueError.
Proof.
  destruct q as [n d]. unfold printable, Lit.str_Fraction, Lit.str_int.
  cbn [Qnum Qden]. intro H.
  destruct (Lit.too_long (Lit.int_digits n)) eqn:En.
  - now destruct d.
  - cbn [negb andb] in H. apply negb_false_iff in H.
    destruct d; cbn [bind]; try (now rewrite H). discriminate H.
Qed.

(** Within the limit [Fraction(str(q))] is [q] in lowest terms. *)
Lemma Fraction_of_str (q : Q) :
  printable q = true ->
  exists s, Lit.str_Fraction q = Ok s /\ Lit.Fraction_of_string s = Ok (Qred q).
Proof.
  destruct q as [n d]. unfold printable. simpl Qnum. simpl Qden. intro Hp.
  apply andb_prop in Hp as (Ln & Ld). apply negb_true_iff in Ln, Ld.
  unfold Lit.Fraction_of_string, Lit.str_Fraction.
  destruct (numeral_spec n) as (Hn & Vn & Dn & Cn).
  assert (Sn : (if n <? 0 then - Z.abs n else Z.abs n) = n).
  { destruct (Z.ltb_spec n 0); lia. }
  assert (One : Lit.Fraction_of_chars (list_ascii_of_string (Lit.decimal n))
                = Ok (Qred (Qmake n 1))).
  { rewrite Cn, <- (List.app_nil_r (uint_chars (numeral n))).
    rewrite (Fraction_of_numeral (n <? 0) (numeral n) None Hn);
      [now rewrite Vn, Sn | now rewrite <- Dn | exact I]. }
  assert (Two : forall d', d' = d ->
      Lit.Fraction_of_chars
        (list_ascii_of_string (Lit.decimal n ++ "/" ++ Lit.decimal (Zpos d'))%string)
      = Ok (Qred (Qmake n d'))).
  { intros d' ->. destruct (numeral_spec (Zpos d)) as (Hd & Vd & Dd & Cd).
    rewrite !chars_app, Cn, Cd. simpl app at 2.
    change (list_ascii_of_string "/") with ["/"%char].
    rewrite <- List.app_assoc. simpl app at 3.
    change (Pos.to_uint d) with (numeral (Zpos d)).
    rewrite (Fraction_of_numeral (n <? 0) (numeral n) (Some (numeral (Zpos d)))).
    - now rewrite Vn, Sn, Vd.
    - exact Hn.
    - now rewrite <- Dn.
    - split; [exact Hd | split; [rewrite Vd; discriminate | now rewrite <- Dd]]. }
  simpl Qden. simpl Qnum. rewrite (str_int_ok n Ln).
  destruct d as [d|d|]; cbn [bind].
  - rewrite (str_int_ok _ Ld). cbn [bind]. eexists. split; [reflexivity|].
    apply (Two _ eq_refl).
  - rewrite (str_int_ok _ Ld). cbn [bind]. eexists. split; [reflexivity|].
    apply (Two _ eq_refl).
  - eexists. split; [reflexivity | exact One].
Qed.

(** The limit is 4300 digits: [10^4300 - 1] is printed, [10^4300] is not. *)
Example str_int_limit :
  Lit.str_int (10 ^ 4300) = Err ValueError /\
  Lit.str_int (10 ^ 4300 - 1) = Ok (Lit.decimal (10 ^ 4300 - 1)) /\
  printable (10 ^ 4300 # 1) = false.
Proof.
  assert (A : Lit.too_long (Lit.int_digits (10 ^ 4300)) = true)
    by (vm_compute; reflexivity).
  assert (B : Lit.too_long (Lit.int_digits (10 ^ 4300 - 1)) = false)
    by (vm_compute; reflexivity).
  unfold Lit.str_int, printable. cbn [Qnum Qden]. rewrite A, B. repeat split.
Qed.

(** X1. An exact-mode REAL or OMEGA whose payload is a [Fraction] is decoded
    from its encoding as itself, in lowest terms and on every platform, as
    long as [str] prints the numerator and the denominator: beyond the limit
    on the digits of an [int] the encoding itself raises ValueError. *)
Theorem roundtrip_Fraction (P : Platform) (q : Q) :
  (printable q = true ->
   roundtrip P (mkExtNum REAL (PFrac q) false)
   = Ok (mkExtNum REAL (PFrac (Qred q)) false) /\
   roundtrip P (mkExtNum OMEGA (PFrac q) false)
   = Ok (mkExtNum OMEGA (PFrac (Qred q)) false)) /\
  (printable q = false ->
   roundtrip P (mkExtNum REAL (PFrac q) false) = Err ValueError /\
   roundtrip P (mkExtNum OMEGA (PFrac q) false) = Err ValueError).
Proof.
  split; intro Hp.
  - destruct (Fraction_of_str q Hp) as (s & Hs & Hf).
    unfold roundtrip, to_json. cbn [kind val use_float Py.str]. rewrite Hs.
    unfold from_json. simpl. unfold json_number, json_Fraction. now rewrite Hf.
  - unfold roundtrip, to_json. cbn [kind val use_float Py.str].
    now rewrite (str_Fraction_long q Hp).
Qed.

Lemma roundtrip_Fraction_witness :
  roundtrip pinned (mkExtNum OMEGA (PFrac (-7 # 2)) false)
  = Ok (mkExtNum OMEGA (PFrac (-7 # 2)) false).
Proof.
  apply (proj2 (proj1 (roundtrip_Fraction pinned (-7 # 2)) eq_refl)).
Defined.

(** ** The precision-mode flag of a result *)

Lemma mode_bind {A} (x : ExtNum) (m : result A) (f : A -> result ExtNum) :
  (forall a, mode_kept x (f a)) -> mode_kept x (bind m f).
Proof. intro H. destruct m; simpl; [apply H | exact I]. Qed.

Lemma mode_real (x : ExtNum) (v : pyval) (uf : bool) :
  uf = use_float x -> mode_kept x (real v uf).
Proof.
  intros ->. unfold mode_kept. destruct (real v (use_float x)) as [r|] eqn:E; [|exact I].
  apply real_Ok_inv in E as (-> & -> & _). reflexivity.
Qed.

Lemma mode_complex (x : ExtNum) (re im : pyval) (uf : bool) :
  uf = use_float x -> mode_kept x (complex re im uf).
Proof.
  intros ->. unfold mode_kept.
  destruct (complex re im (use_float x)) as [r|] eqn:E; [|exact I].
  apply complex_Ok_inv in E as (-> & -> & _). reflexivity.
Qed.

Lemma mode_omega (x : ExtNum) (a : pyval) (uf : bool) :
  uf = use_float x -> mode_kept x (omega a uf).
Proof.
  intros ->. unfold mode_kept.
  destruct (omega a (use_float x)) as [r|] eqn:E; [|exact I].
  apply omega_Ok_inv in E as (-> & -> & _). reflexivity.
Qed.

Lemma forced_bind {A} (m : result A) (f : A -> result ExtNum) :
  (forall a, forced_float (f a)) -> forced_float (bind m f).
Proof. intro H. destruct m; simpl; [apply H | exact I]. Qed.

Lemma forced_real (v : pyval) : forced_float (real v true).
Proof.
  unfold forced_float. destruct (real v true) as [r|] eqn:E; [|exact I].
  now apply real_Ok_inv in E as (_ & -> & _).
Qed.

Lemma forced_complex (re im : pyval) : forced_float (complex re im true).
Proof.
  unfold forced_float. destruct (complex re im true) as [r|] eqn:E; [|exact I].
  now apply complex_Ok_inv in E as (_ & -> & _).
Qed.

Ltac mode_step :=
  match goal with
  | |- mode_kept _ (bind _ _) => apply mode_bind; intros
  | |- mode_kept _ (real _ _) => apply mode_real; reflexivity
  | |- mode_kept _ (complex _ _ _) => apply mode_complex; reflexivity
  | |- mode_kept _ (omega _ _) => apply mode_omega; reflexivity
  | |- mode_kept _ (Ok _) => reflexivity
  | |- mode_kept _ (Err _) => exact I
  | |- mode_kept _ (if ?b then _ else _) => destruct b
  | |- mode_kept _ (match ?k with _ => _ end) => destruct k
  end.

Ltac mode_solve :=
  repeat (cbn [kind val use_float Kind_eqb orb andb negb is_finite]; mode_step).

Section Mode.

Variable P : Platform.

Lemma add_sub_mode (x : ExtNum) (o : operand) (s : Z) :
  mode_kept x (_add_sub P x o s).
Proof. unfold _add_sub. destruct x as [[] v uf]; mode_solve. Qed.

Lemma neg_mode (x : ExtNum) : mode_kept x (__neg__ x).
Proof. unfold __neg__. destruct x as [[] v uf]; mode_solve. Qed.

Lemma mul_mode (x : ExtNum) (o : operand) : mode_kept x (__mul__ x o).
Proof. unfold __mul__. destruct x as [[] v uf]; mode_solve. Qed.

Lemma truediv_mode (x : ExtNum) (o : operand) : mode_kept x (__truediv__ x o).
Proof. unfold __truediv__. destruct x as [[] v uf]; mode_solve. Qed.

Lemma pow_int_mode (x : ExtNum) (n : Z) : mode_kept x (__pow__ P x (PInt n)).
Proof. unfold __pow__. destruct x as [[] v uf]; mode_solve. Qed.

Lemma abs_mode (x : ExtNum) : mode_kept x (abs P x).
Proof. unfold abs. destruct x as [[] v uf]; mode_solve. Qed.

Lemma sign_mode (x : ExtNum) : mode_kept x (sign x).
Proof. unfold sign. destruct x as [[] v uf]; mode_solve. Qed.

Lemma log_mode (x : ExtNum) : mode_kept x (log P x).
Proof. unfold log. destruct x as [[] v uf]; mode_solve. Qed.

Lemma exp_mode (x : ExtNum) : mode_kept x (exp P x).
Proof. unfold exp. destruct x as [[] v uf]; mode_solve. Qed.

Lemma sin_mode (x : ExtNum) : mode_kept x (sin P x).
Proof. unfold sin. destruct x as [[] v uf]; mode_solve. Qed.

Lemma cos_mode (x : ExtNum) : mode_kept x (cos P x).
Proof. unfold cos. destruct x as [[] v uf]; mode_solve. Qed.

Lemma sqrt_mode (x : ExtNum) : mode_kept x (sqrt P x).
Proof. unfold sqrt. destruct x as [[] v uf]; mode_solve. Qed.

Lemma pow_float_forced (p : pyval) (uf : bool) (e : float) :
  forced_float (__pow__ P (mkExtNum REAL p uf) (PFloat e)).
Proof.
  unfold __pow__. cbn [kind val use_float].
  apply forced_bind. intro base. destruct (PrimFloat.ltb base 0).
  - do 5 (apply forced_bind; intro). apply forced_complex.
  - apply forced_bind. intro. apply forced_real.
Qed.

(** C5, as the code has it.  No method renegotiates the flag: the result
    of [+], [-], unary [-], [*], [/], [**] with an integer exponent, [abs],
    [sign], [log], [exp], [sin], [cos] and [sqrt] carries the flag of the
    (left) operand, a BOTTOM result the exact-mode flag; only a REAL raised to
    a float exponent is forced to float mode.  [exp], [log], [sin], [cos] and
    [sqrt] of an exact-mode operand therefore return an exact-mode result. *)
Theorem C5_mode_flag (x : ExtNum) (o : operand) (n : Z) (p : pyval) (uf : bool)
    (e : float) :
  mode_kept x (__add__ P x o) /\ mode_kept x (__sub__ P x o) /\
  mode_kept x (__neg__ x) /\ mode_kept x (__mul__ x o) /\
  mode_kept x (__truediv__ x o) /\ mode_kept x (__pow__ P x (PInt n)) /\
  mode_kept x (abs P x) /\ mode_kept x (sign x) /\
  mode_kept x (log P x) /\ mode_kept x (exp P x) /\
  mode_kept x (sin P x) /\ mode_kept x (cos P x) /\ mode_kept x (sqrt P x) /\
  forced_float (__pow__ P (mkExtNum REAL p uf) (PFloat e)).
Proof.
  unfold __add__, __sub__.
  repeat split;
    auto using add_sub_mode, neg_mode, mul_mode, truediv_mode, pow_int_mode,
      abs_mode, sign_mode, log_mode, exp_mode, sin_mode, cos_mode, sqrt_mode,
      pow_float_forced.
Qed.

End Mode.

(** [sqrt] of exact REAL 2 on any platform: the double nearest to the square
    root, converted to the [Fraction] of its exact value, in exact mode. *)
Example sqrt_two_exact (P : Platform) :
  sqrt P real_two
  = Ok (mkExtNum REAL (PFrac (6369051672525773 # 4503599627370496)) false).
Proof. reflexivity. Qed.

Example exp_zero_exact :
  exp pinned (real_zero false) = Ok (mkExtNum REAL (PFrac (1 # 1)) false).
Proof. reflexivity. Qed.

(** C5 as stated fails: [exp], [log], [sin], [cos] and [sqrt] of an
    exact-mode REAL are claimed to return a float-mode result, but
    [sqrt(REAL 2)] is an exact-mode REAL. *)
Lemma C5_counterexample :
  ~ (forall (P : Platform) (x r : ExtNum),
        kind x = REAL -> use_float x = false ->
        exp P x = Ok r \/ log P x = Ok r \/ sin P x = Ok r \/
        cos P x = Ok r \/ sqrt P x = Ok r ->
        use_float r = true).
Proof.
  intro H.
  specialize (H pinned real_two _ eq_refl eq_refl
                (or_intror (or_intror (or_intror (or_intror (sqrt_two_exact pinned)))))).
  discriminate H.
Qed.

(** ** The logarithm of an OMEGA *)

Example omega_minus_one_built : omega (PInt (-1)) false = Ok omega_minus_one.
Proof. reflexivity. Qed.

(** On [Ω(-1)] the code takes [math.log(abs(-1)) = 0.0] and returns BOTTOM;
    the principal logarithm of [-1] is [pi j], which is not zero. *)
Example log_omega_minus_one :
  log pinned omega_minus_one = Ok bottom /\
  log_of_direction pinned omega_minus_one
  = Ok (mkExtNum OMEGA (PComplex 0 pi_double) false).
Proof. split; reflexivity. Qed.

(** C8 as stated fails: the logarithm is not applied to the direction
    itself when the direction is a negative real. *)
Lemma C8_counterexample :
  ~ (forall (P : Platform) (x : ExtNum),
        kind x = OMEGA -> wf x = true ->
        same_value (log P x) (log_of_direction P x) = true).
Proof.
  intro H. specialize (H pinned omega_minus_one eq_refl eq_refl).
  discriminate H.
Qed.

Lemma abs_opp_float (f : float) :
  PrimFloat.abs (PrimFloat.opp f) = PrimFloat.abs f.
Proof.
  apply Prim2SF_inj. rewrite !abs_spec, opp_spec.
  now destruct (Prim2SF f).
Qed.

Lemma Qabs_opp_eq (q : Q) : Qabs (Qopp q) = Qabs q.
Proof. destruct q as [n d]. simpl. now rewrite Z.abs_opp. Qed.

(** C8, as the code has it.  [log] of an OMEGA rewraps a logarithm as OMEGA
    and returns BOTTOM when the magnitude of that logarithm is zero.  For a
    complex direction it is the principal logarithm [cmath.log] of the
    direction; for a real direction (a [Fraction] or a double) it is
    [math.log] of the direction's magnitude, so that [Ω(d)] and [Ω(-d)] have
    the same logarithm. *)
Theorem C8_log_omega (P : Platform) (uf : bool) :
  (forall re im : float,
      log P (mkExtNum OMEGA (PComplex re im) uf) =
      (lv <- cmath1 (cmath_log P) (PComplex re im) ;; rewrap P uf lv)) /\
  (forall q : Q,
      log P (mkExtNum OMEGA (PFrac q) uf) =
      (lv <- math1 (math_log P) (PFrac (Qabs q)) ;; rewrap P uf lv)) /\
  (forall f : float,
      log P (mkExtNum OMEGA (PFloat f) uf) =
      (lv <- math1 (math_log P) (PFloat (PrimFloat.abs f)) ;; rewrap P uf lv)) /\
  (forall q : Q,
      log P (mkExtNum OMEGA (PFrac (Qopp q)) uf)
      = log P (mkExtNum OMEGA (PFrac q) uf)) /\
  (forall f : float,
      log P (mkExtNum OMEGA (PFloat (PrimFloat.opp f)) uf)
      = log P (mkExtNum OMEGA (PFloat f) uf)).
Proof.
  assert (R : forall lv, (n <- Py.abs P lv ;;
                          if negb (Py.eq n zero) then omega lv uf else Ok bottom)
                         = rewrap P uf lv).
  { intro lv. unfold rewrap. destruct (Py.abs P lv) as [n|]; simpl; [|reflexivity].
    now destruct (Py.eq n zero). }
  assert (HC : forall re im : float,
      log P (mkExtNum OMEGA (PComplex re im) uf) =
      (lv <- cmath1 (cmath_log P) (PComplex re im) ;; rewrap P uf lv)).
  { intros re im. unfold log. cbn [kind val use_float is_complex].
    destruct (cmath1 (cmath_log P) (PComplex re im)); simpl; [apply R | reflexivity]. }
  assert (HQ : forall q : Q,
      log P (mkExtNum OMEGA (PFrac q) uf) =
      (lv <- math1 (math_log P) (PFrac (Qabs q)) ;; rewrap P uf lv)).
  { intro q. unfold log. cbn [kind val use_float is_complex Py.abs bind].
    destruct (math1 (math_log P) (PFrac (Qabs q))); simpl; [apply R | reflexivity]. }
  assert (HF : forall f : float,
      log P (mkExtNum OMEGA (PFloat f) uf) =
      (lv <- math1 (math_log P) (PFloat (PrimFloat.abs f)) ;; rewrap P uf lv)).
  { intro f. unfold log. cbn [kind val use_float is_complex Py.abs bind].
    destruct (math1 (math_log P) (PFloat (PrimFloat.abs f))); simpl;
      [apply R | reflexivity]. }
  repeat split; try assumption.
  - intro q. now rewrite !HQ, Qabs_opp_eq.
  - intro f. now rewrite !HF, abs_opp_float.
Qed.

(** ** Equality and hashing *)

Section TupleHash.

Local Open Scope Z_scope.

Lemma u64_range (z : Z) : 0 <= u64 z < 2 ^ 64.
Proof. unfold u64. apply Z.mod_pos_bound. reflexivity. Qed.

Lemma u64_small (z : Z) : 0 <= z < 2 ^ 64 -> u64 z = z.
Proof. intro H. unfold u64. now apply Z.mod_small. Qed.

Lemma testbit_high (x m : Z) : 0 <= x < 2 ^ 64 -> 64 <= m -> Z.testbit x m = false.
Proof.
  intros Hx Hm. rewrite <- (Z.mod_small x (2 ^ 64)) by exact Hx.
  apply Z.mod_pow2_bits_high. lia.
Qed.

Lemma u64_bit (z m : Z) :
  Z.testbit (u64 z) m = if 64 <=? m then false else Z.testbit z m.
Proof.
  unfold u64. destruct (64 <=? m) eqn:E.
  - apply Z.mod_pow2_bits_high. lia.
  - destruct (Z.neg_nonneg_cases m) as [Hm | Hm].
    + now rewrite !Z.testbit_neg_r.
    + apply Z.mod_pow2_bits_low. lia.
Qed.

(** The rotation by 31 bits moves bit [m - 31] (or [m + 33]) to bit [m]. *)
Lemma XXROTATE_bit (x m : Z) :
  0 <= x < 2 ^ 64 -> 0 <= m < 64 ->
  Z.testbit (XXROTATE x) m =
  if m <? 31 then Z.testbit x (m + 33) else Z.testbit x (m - 31).
Proof.
  intros Hx Hm. unfold XXROTATE. rewrite u64_bit.
  destruct (64 <=? m) eqn:E; [lia|].
  rewrite Z.lor_spec, Z.shiftl_spec, Z.shiftr_spec by lia.
  destruct (m <? 31) eqn:E1.
  - rewrite (Z.testbit_neg_r x (m - 31)) by lia. reflexivity.
  - rewrite (testbit_high x (m + 33)) by lia. apply orb_false_r.
Qed.

Lemma rotate_back_XXROTATE (x : Z) :
  0 <= x < 2 ^ 64 -> rotate_back (XXROTATE x) = x.
Proof.
  intro Hx. apply Z.bits_inj'. intros m Hm. unfold rotate_back.
  rewrite u64_bit. destruct (64 <=? m) eqn:E.
  - symmetry. apply testbit_high; [exact Hx | lia].
  - rewrite Z.lor_spec, Z.shiftl_spec, Z.shiftr_spec by lia.
    destruct (m <? 33) eqn:E1.
    + rewrite (Z.testbit_neg_r _ (m - 33)) by lia.
      rewrite XXROTATE_bit by lia.
      destruct (m + 31 <? 31) eqn:E2; [lia|]. simpl. f_equal. lia.
    + rewrite (testbit_high _ (m + 31)) by (apply u64_range || lia).
      rewrite XXROTATE_bit by lia.
      destruct (m - 33 <? 31) eqn:E2; [|lia].
      rewrite orb_false_r. f_equal. lia.
Qed.

Lemma mul_XXPRIME_1_inv (x : Z) : u64 (u64 (x * XXPRIME_1) * XXPRIME_1_inv) = u64 x.
Proof.
  unfold u64. rewrite Z.mul_mod_idemp_l by discriminate.
  rewrite <- Z.mul_assoc, <- Z.mul_mod_idemp_r by discriminate.
  change (XXPRIME_1 * XXPRIME_1_inv mod 2 ^ 64) with 1.
  now rewrite Z.mul_1_r.
Qed.

Lemma unstep_step (acc lane : Z) :
  0 <= acc < 2 ^ 64 -> unstep (tuplehash_step acc lane) lane = acc.
Proof.
  intro Ha. unfold unstep, tuplehash_step.
  rewrite mul_XXPRIME_1_inv.
  rewrite (u64_small (XXROTATE _)) by (unfold XXROTATE; apply u64_range).
  rewrite rotate_back_XXROTATE by apply u64_range.
  unfold u64. rewrite Zminus_mod_idemp_l.
  replace (acc + lane mod 2 ^ 64 * XXPRIME_2 - lane mod 2 ^ 64 * XXPRIME_2)
    with acc by ring.
  now apply Z.mod_small.
Qed.

Lemma tuplehash_step_range (acc lane : Z) : 0 <= tuplehash_step acc lane < 2 ^ 64.
Proof. unfold tuplehash_step. apply u64_range. Qed.

Lemma tuplehash3 (a b c : Z) :
  tuplehash [a; b; c]
  = finish3 (tuplehash_step (tuplehash_step (tuplehash_step XXPRIME_5 a) b) c).
Proof.
  unfold tuplehash, finish3, length_mix3. cbn [fold_left List.length].
  change (Z.of_nat 3) with 3. reflexivity.
Qed.

Lemma unfinish3_spec (s : Z) :
  0 <= s < 2 ^ 64 -> unfinish3 (u64 (s + length_mix3)) = s.
Proof.
  intro Hs. unfold unfinish3, u64. rewrite Zminus_mod_idemp_l.
  replace (s + length_mix3 - length_mix3) with s by ring.
  now apply Z.mod_small.
Qed.

Lemma before_last_spec (A lane : Z) :
  0 <= A < 2 ^ 64 ->
  before_last lane (u64 (tuplehash_step A lane + length_mix3)) = A.
Proof.
  intro HA. unfold before_last.
  rewrite unfinish3_spec by apply tuplehash_step_range.
  now apply unstep_step.
Qed.

(** No accumulator is sent to the same mixed word by the lanes 0 and 1. *)
Lemma before_last_differ (t : Z) : before_last 0 t <> before_last 1 t.
Proof.
  unfold before_last, unstep.
  generalize (rotate_back (u64 (unfinish3 t * XXPRIME_1_inv))). intros r E.
  unfold u64 in E.
  apply (f_equal (fun z => (r - z) mod 2 ^ 64)) in E.
  rewrite !Zminus_mod_idemp_r in E.
  replace (r - (r - 0 mod 2 ^ 64 * XXPRIME_2)) with (0 mod 2 ^ 64 * XXPRIME_2) in E by ring.
  replace (r - (r - 1 mod 2 ^ 64 * XXPRIME_2)) with (1 mod 2 ^ 64 * XXPRIME_2) in E by ring.
  vm_compute in E. discriminate E.
Qed.

(** The one word that [tuplehash] remaps, [2^64 - 1], is reached from one
    accumulator per lane; neither of the two reaches the word it is remapped
    to through the other lane. *)
Lemma remapped_word_apart :
  u64 (tuplehash_step (before_last 0 (2 ^ 64 - 1)) 1 + length_mix3) <> 1546275796 /\
  u64 (tuplehash_step (before_last 1 (2 ^ 64 - 1)) 0 + length_mix3) <> 1546275796.
Proof. split; vm_compute; discriminate. Qed.

Lemma finish3_last_lane (A : Z) :
  0 <= A < 2 ^ 64 ->
  finish3 (tuplehash_step A 0) <> finish3 (tuplehash_step A 1).
Proof.
  intro HA.
  pose proof (before_last_spec A 0 HA) as B0.
  pose proof (before_last_spec A 1 HA) as B1.
  unfold finish3.
  pose proof (u64_range (tuplehash_step A 0 + length_mix3)) as T0.
  pose proof (u64_range (tuplehash_step A 1 + length_mix3)) as T1.
  remember (u64 (tuplehash_step A 0 + length_mix3)) as t0 eqn:E0.
  remember (u64 (tuplehash_step A 1 + length_mix3)) as t1 eqn:E1.
  cbv zeta.
  assert (Hne : t0 <> t1).
  { intro E. rewrite <- E in B1. apply (before_last_differ t0). congruence. }
  destruct remapped_word_apart as [W0 W1].
  destruct (Z.eqb_spec t0 (2 ^ 64 - 1)) as [H0 | H0];
    destruct (Z.eqb_spec t1 (2 ^ 64 - 1)) as [H1 | H1].
  - congruence.
  - rewrite H0 in B0. rewrite <- B0 in E1. rewrite <- E1 in W0.
    destruct (Z.ltb_spec t1 (2 ^ 63)); lia.
  - rewrite H1 in B1. rewrite <- B1 in E0. rewrite <- E0 in W1.
    destruct (Z.ltb_spec t0 (2 ^ 63)); lia.
  - destruct (Z.ltb_spec t0 (2 ^ 63)); destruct (Z.ltb_spec t1 (2 ^ 63)); lia.
Qed.

(** Two hashes of three items that agree on the first two differ when the
    last items are 0 and 1. *)
Lemma tuplehash_last_lane (a b : Z) : tuplehash [a; b; 0] <> tuplehash [a; b; 1].
Proof.
  rewrite !tuplehash3. apply finish3_last_lane, tuplehash_step_range.
Qed.

End TupleHash.

Section EqualityAndHash.

Variable P : Platform.

(** [==] never reads the flag of either operand. *)
Lemma eq_ignores_mode (k k' : Kind) (v v' : pyval) (f1 f2 f1' f2' : bool) :
  __eq__ (mkExtNum k v f1) (OExt (mkExtNum k' v' f2))
  = __eq__ (mkExtNum k v f1') (OExt (mkExtNum k' v' f2')).
Proof. reflexivity. Qed.

(** Any two BOTTOM values are equal. *)
Lemma eq_bottom (x y : ExtNum) :
  kind x = BOTTOM -> kind y = BOTTOM -> __eq__ x (OExt y) = Ok true.
Proof. unfold __eq__. simpl. now intros -> ->. Qed.

(** [hash] does read it: the same kind and payload hash differently in the
    two modes. *)
Lemma hash_reads_mode (k : Kind) (v : pyval) :
  __hash__ P (mkExtNum k v false) <> __hash__ P (mkExtNum k v true).
Proof. unfold __hash__. simpl. apply tuplehash_last_lane. Qed.

(** C2, where the code departs from it: [__eq__] compares kind and payload
    only, [__hash__] hashes kind, payload and mode.  The COMPLEX value [1+2j]
    built in exact mode and the one built in float mode have the same kind and
    the same payload, differ in mode, compare equal, and hash differently
    (whatever the hashes of kinds and payloads are); and in general equality
    does not change when the flags change, while the hash does. *)
Theorem C2_eq_without_mode_hash_with_mode :
  kind (one_two_j false) = kind (one_two_j true) /\
  val (one_two_j false) = val (one_two_j true) /\
  use_float (one_two_j false) <> use_float (one_two_j true) /\
  __eq__ (one_two_j false) (OExt (one_two_j true)) = Ok true /\
  __hash__ P (one_two_j false) <> __hash__ P (one_two_j true) /\
  (forall (k : Kind) (v : pyval),
      __eq__ (mkExtNum k v false) (OExt (mkExtNum k v true))
      = __eq__ (mkExtNum k v false) (OExt (mkExtNum k v false)) /\
      __hash__ P (mkExtNum k v false) <> __hash__ P (mkExtNum k v true)).
Proof.
  repeat split; try reflexivity; try discriminate; apply hash_reads_mode.
Qed.

End EqualityAndHash.

(** Payloads compare as numbers: exact REAL one equals float REAL one. *)
Example eq_exact_float_one :
  __eq__ (mkExtNum REAL (PFrac (1 # 1)) false) (OExt (mkExtNum REAL (PFloat 1) true))
  = Ok true.
Proof. reflexivity. Qed.

(** ** The scenarios of the specification

    Those that no library function decides hold on every platform. *)

Section Scenarios.

Variable P : Platform.

(** [real(2) + real(3) == real(5)] *)
Example add_2_3 :
  __add__ P real_two (OExt (mkExtNum REAL (PFrac (3 # 1)) false))
  = Ok (mkExtNum REAL (PFrac (5 # 1)) false).
Proof. reflexivity. Qed.

(** [real(2, float) + real(1.5, float) == real(3.5, float)] *)
Example add_2_1p5_float :
  __add__ P (mkExtNum REAL (PFloat 2) true) (OVal (PFloat 1.5))
  = Ok (mkExtNum REAL (PFloat 3.5) true).
Proof. reflexivity. Qed.

(** [safe_div(2, 0)] is [Ω(2)], [safe_div(0, 0)] is BOTTOM. *)
Example divide_2_0 :
  safe_div (OVal (PInt 2)) (OVal (PInt 0)) false
  = Ok (mkExtNum OMEGA (PFrac (2 # 1)) false)
  /\ omega (PInt 2) false = Ok (mkExtNum OMEGA (PFrac (2 # 1)) false)
  /\ is_infinite (mkExtNum OMEGA (PFrac (2 # 1)) false) = true.
Proof. repeat split. Qed.

Example divide_0_0 :
  safe_div (OVal (PInt 0)) (OVal (PInt 0)) false = Ok bottom
  /\ is_undefined bottom = true.
Proof. split; reflexivity. Qed.

(** [Ω(a) - Ω(a) == REAL(0)] *)
Example cancellation (q : Q) :
  Qeq_bool q q = true ->
  __sub__ P (mkExtNum OMEGA (PFrac q) false) (OExt (mkExtNum OMEGA (PFrac q) false))
  = Ok (real_zero false).
Proof. intro H. unfold __sub__, _add_sub. simpl. now rewrite H. Qed.

(** [REAL(1) < Ω(1) < Ω(5)], and the magnitude alone ranks directions. *)
Example ordering :
  __lt__ P (mkExtNum REAL (PFrac (1 # 1)) false)
         (OExt (mkExtNum OMEGA (PFrac (1 # 1)) false)) = Ok true
  /\ __lt__ P (mkExtNum OMEGA (PFrac (1 # 1)) false)
           (OExt (mkExtNum OMEGA (PFrac (5 # 1)) false)) = Ok true
  /\ __lt__ P (mkExtNum OMEGA (PFrac (5 # 1)) false)
           (OExt (mkExtNum OMEGA (PFrac (-5 # 1)) false)) = Ok false.
Proof. repeat split. Qed.

(** [omega(0)] raises in both modes. *)
Example construction_guard (uf : bool) :
  omega (PInt 0) uf = Err ValueError /\ omega (PFloat 0) uf = Err ValueError
  /\ omega (PComplex 0 0) uf = Err ValueError.
Proof. destruct uf; repeat split. Qed.

(** [-(-x) == x] on an exact REAL. *)
Example double_negation (q : Q) :
  (y <- __neg__ (mkExtNum REAL (PFrac q) false) ;; __neg__ y)
  = Ok (mkExtNum REAL (PFrac (Qopp (Qopp q))) false).
Proof. reflexivity. Qed.

End Scenarios.

(** * Further properties of the code

    Properties read off [ext_num.py] beyond the statements above: the data
    model as an invariant, sums and products across kinds, the order, exact
    arithmetic, negation, truth value and printing, decoding, coercion and
    hashing. *)

(** ** The guard of [omega] *)

Lemma eq_zero_Frac (q : Q) : Py.eq (PFrac q) zero = (Qnum q =? 0).
Proof. unfold zero. simpl. unfold Qeq_bool. simpl. now rewrite Z.mul_1_r. Qed.

Lemma eq_zero_Int (z : Z) : Py.eq (PInt z) zero = (z =? 0).
Proof. unfold zero. simpl. unfold Qeq_bool. simpl. now rewrite Z.mul_1_r. Qed.

Lemma to_Q_zero (f : float) (q : Q) :
  F64.to_Q f = Ok q -> Qeq_bool (0 # 1) q = true -> Qnum q = 0.
Proof.
  intros _ H. apply Qeq_bool_iff in H. unfold Qeq in H. simpl in H. lia.
Qed.

Lemma omega_zero (a : pyval) (uf : bool) :
  Py.eq a zero = true -> omega a uf = Err ValueError.
Proof.
  intro H. unfold omega. fold zero.
  destruct a as [z|q|f|re im|]; try discriminate.
  - rewrite eq_zero_Int in H. apply Z.eqb_eq in H. subst z.
    destruct uf; reflexivity.
  - rewrite eq_zero_Frac in H. apply Z.eqb_eq in H.
    destruct uf; cbn [andb is_Real Py.float_ Py.Fraction_ fmap bind].
    + unfold F64.of_Q, F64.nearest. rewrite H. reflexivity.
    + rewrite eq_zero_Frac, H. reflexivity.
  - destruct uf; cbn [andb is_Real Py.float_ Py.Fraction_ fmap bind].
    + now rewrite H.
    + unfold zero in H. simpl in H. unfold Py.Q_eq_float in H.
      destruct (F64.to_Q f) as [q|] eqn:E; [|discriminate].
      cbn [fmap bind]. rewrite eq_zero_Frac.
      rewrite (to_Q_zero f q E H). reflexivity.
  - destruct uf; cbn -[Py.eq];
      change (Py.of_cplx (re, im)) with (PComplex re im); now rewrite H.
Qed.

(** X2. The guard of [omega]: whatever the mode, a direction that equals zero
    (an [int], a [Fraction], a double of either sign, a complex) is refused
    with ValueError, and a value that [omega] returns never has a zero
    direction. *)
Theorem omega_refuses_zero (a : pyval) (uf : bool) :
  (Py.eq a zero = true -> omega a uf = Err ValueError) /\
  (forall r, omega a uf = Ok r -> kind r = OMEGA /\ Py.eq (val r) zero = false).
Proof.
  split; [apply omega_zero|].
  intros r H. apply omega_Ok_inv in H. tauto.
Qed.

Lemma omega_refuses_zero_witness : omega (PFrac (0 # 5)) true = Err ValueError.
Proof. apply (proj1 (omega_refuses_zero (PFrac (0 # 5)) true)). reflexivity. Defined.

(** ** The data model is an invariant *)

Lemma wfr_bind {A} (m : result A) (f : A -> result ExtNum) :
  (forall a, wf_result (f a)) -> wf_result (bind m f).
Proof. intro H. destruct m; simpl; [apply H | exact I]. Qed.

Lemma wfr_real (v : pyval) (uf : bool) : wf_result (real v uf).
Proof. destruct (real v uf) eqn:E; simpl; [now apply real_wf in E | exact I]. Qed.

Lemma wfr_complex (re im : pyval) (uf : bool) : wf_result (complex re im uf).
Proof.
  destruct (complex re im uf) eqn:E; simpl; [now apply complex_wf in E | exact I].
Qed.

Lemma wfr_omega (a : pyval) (uf : bool) : wf_result (omega a uf).
Proof. destruct (omega a uf) eqn:E; simpl; [now apply omega_wf in E | exact I]. Qed.

Ltac wf_step :=
  match goal with
  | |- wf_result (bind _ _) => apply wfr_bind; intros
  | |- wf_result (real _ _) => apply wfr_real
  | |- wf_result (complex _ _ _) => apply wfr_complex
  | |- wf_result (omega _ _) => apply wfr_omega
  | |- wf_result (Ok bottom) => reflexivity
  | H : wf ?x = true |- wf_result (Ok ?x) => exact H
  | |- wf_result (Err _) => exact I
  | |- wf_result (if ?b then _ else _) => destruct b
  | |- wf_result (match ?k with _ => _ end) => destruct k
  end.

Ltac wf_solve :=
  repeat (cbn [kind val use_float Kind_eqb orb andb negb is_finite]; wf_step).

Section DataModel.

Variable P : Platform.

Lemma add_sub_wf (x : ExtNum) (o : operand) (s : Z) :
  wf x = true -> wf_result (_add_sub P x o s).
Proof. intro Hx. unfold _add_sub. wf_solve. Qed.

Lemma neg_wf (x : ExtNum) : wf x = true -> wf_result (__neg__ x).
Proof.
  destruct x as [k v uf]. unfold wf, __neg__. cbn [kind val use_float].
  destruct k, v; try discriminate; intro Hx; cbn [Py.neg bind];
    try apply wfr_omega; try exact Hx; reflexivity.
Qed.

Lemma pow_wf (x : ExtNum) (e : pyval) : wf_result (__pow__ P x e).
Proof. unfold __pow__. wf_solve. Qed.

Lemma abs_wf (x : ExtNum) : wf_result (abs P x).
Proof. unfold abs. wf_solve. Qed.

Lemma sign_wf (x : ExtNum) : wf_result (sign x).
Proof. unfold sign. wf_solve. Qed.

Lemma log_wf (x : ExtNum) : wf_result (log P x).
Proof. unfold log. wf_solve. Qed.

Lemma exp_wf (x : ExtNum) : wf_result (exp P x).
Proof. unfold exp. wf_solve. Qed.

Lemma sqrt_wf (x : ExtNum) : wf_result (sqrt P x).
Proof. unfold sqrt. wf_solve. Qed.

(** X3. Every value returned by [+], [-], unary [-], [**], [abs], [sign], [log],
    [exp] and [sqrt] on a well-formed operand satisfies the data model again:
    these methods build their result with a constructor, return the operand
    itself, or negate a payload in place. *)
Theorem data_model_kept (x : ExtNum) (o : operand) (e : pyval) :
  wf x = true ->
  wf_result (__add__ P x o) /\ wf_result (__sub__ P x o) /\
  wf_result (__neg__ x) /\ wf_result (__pow__ P x e) /\
  wf_result (abs P x) /\ wf_result (sign x) /\
  wf_result (log P x) /\ wf_result (exp P x) /\ wf_result (sqrt P x).
Proof.
  intro Hx.
  split; [now apply add_sub_wf|]. split; [now apply add_sub_wf|].
  split; [now apply neg_wf|]. split; [apply pow_wf|].
  split; [apply abs_wf|]. split; [apply sign_wf|].
  split; [apply log_wf|]. split; [apply exp_wf | apply sqrt_wf].
Qed.

End DataModel.

Lemma data_model_kept_witness :
  wf_result (__sub__ pinned (mkExtNum OMEGA (PFrac (3 # 1)) false) (OVal (PInt 2))).
Proof.
  apply (data_model_kept pinned (mkExtNum OMEGA (PFrac (3 # 1)) false)
           (OVal (PInt 2)) PNone).
  reflexivity.
Defined.

Lemma bind_assoc {A B C} (m : result A) (g : A -> result B) (f : B -> result C) :
  bind (bind m g) f = bind m (fun a => bind (g a) f).
Proof. now destruct m. Qed.

Ltac wf_payload :=
  repeat (cbn [kind val use_float Kind_eqb orb andb negb is_finite bind];
          match goal with
          | |- wf_result (bind (bind _ _) _) => rewrite bind_assoc
          | |- wf_result (bind (fmap _ _) _) => unfold fmap at 1
          | |- wf_result (bind (if ?b then _ else _) _) => destruct b
          | |- wf_result (bind (Err _) _) => exact I
          | |- wf_result (Ok (mkExtNum _ _ _)) => reflexivity
          | _ => wf_step
          end).

Lemma mul_complex_r (a : pyval) (re im : float) (v : pyval) :
  Py.mul a (PComplex re im) = Ok v -> is_complex v = true.
Proof.
  unfold Py.mul. intro H. apply bind_Ok_inv in H as (t & Ht & Hv).
  destruct a; simpl in Ht; try discriminate;
    try (apply bind_Ok_inv in Ht as (c & _ & Ht));
    try (apply bind_Ok_inv in Ht as (c' & _ & Ht));
    injection Ht as <-; injection Hv as <-; reflexivity.
Qed.

Lemma div_complex_r (a : pyval) (re im : float) (v : pyval) :
  Py.div a (PComplex re im) = Ok v -> is_complex v = true.
Proof.
  unfold Py.div. intro H. apply bind_Ok_inv in H as (t & Ht & Hv).
  destruct a; simpl in Ht; try discriminate;
    try (apply bind_Ok_inv in Ht as (c & _ & Ht));
    try (apply bind_Ok_inv in Ht as (c' & _ & Ht));
    injection Ht as <-; apply fmap_Ok_inv in Hv as (res & _ & ->); reflexivity.
Qed.

Lemma mul_Frac_float (q : Q) (f : float) (v : pyval) :
  Py.mul (PFrac q) (PFloat f) = Ok v -> is_float v = true.
Proof.
  unfold Py.mul. intro H. apply bind_Ok_inv in H as (t & Ht & Hv).
  simpl in Ht. apply bind_Ok_inv in Ht as (c & _ & Ht).
  injection Ht as <-. injection Hv as <-. reflexivity.
Qed.

Lemma div_Frac_float (q : Q) (f : float) (v : pyval) :
  Py.div (PFrac q) (PFloat f) = Ok v -> is_float v = true.
Proof.
  unfold Py.div. intro H. apply bind_Ok_inv in H as (t & Ht & Hv).
  simpl in Ht. apply bind_Ok_inv in Ht as (c & _ & Ht).
  injection Ht as <-. destruct (PrimFloat.eqb f 0); [discriminate|].
  injection Hv as <-. reflexivity.
Qed.

(** X4. [*] and [/] between two finite operands store [self.val * other.val]
    under the kind and the mode of the left operand without a constructor.
    The result satisfies the data model when the right operand does not
    widen the payload; a REAL times or over a COMPLEX, and an exact-mode REAL
    times or over a float-mode REAL, return a REAL that breaks it. *)
Theorem mul_div_representation (x y : ExtNum) :
  wf x = true -> wf y = true ->
  (keeps_representation x y = true ->
   wf_result (__mul__ x (OExt y)) /\ wf_result (__truediv__ x (OExt y))) /\
  (keeps_representation x y = false ->
   (forall r, Py.eq (val x) zero = false -> Py.eq (val y) zero = false ->
              __mul__ x (OExt y) = Ok r -> kind r = REAL /\ wf r = false) /\
   (forall r, Py.eq (val y) zero = false ->
              __truediv__ x (OExt y) = Ok r -> kind r = REAL /\ wf r = false)).
Proof.
  destruct x as [k v uf], y as [k' v' uf']. unfold wf, keeps_representation.
  cbn [kind val use_float]. intros Hx Hy. split.
  - intro Hk. unfold __mul__, __truediv__, _coerce. cbn [bind kind val use_float].
    destruct k, v; try discriminate Hx; destruct k', v'; try discriminate Hy;
      try discriminate Hk;
      destruct uf; try discriminate Hx; destruct uf'; try discriminate Hy;
      try discriminate Hk;
      (split; [unfold Py.mul | unfold Py.div]; cbn -[Py.eq omega real wf];
       wf_payload; reflexivity).
  - intro Hk.
    destruct k, v; try discriminate Hx; destruct k', v'; try discriminate Hy;
      try discriminate Hk;
      destruct uf; try discriminate Hx; destruct uf'; try discriminate Hy;
      try discriminate Hk.
    all: unfold __mul__, __truediv__, _coerce;
      cbn [bind kind val use_float Kind_eqb orb andb is_finite];
      split; intros r; [intros -> -> | intros ->]; cbn [andb orb]; intro H;
      apply bind_Ok_inv in H as (w & Hw & Hr); injection Hr as <-;
      cbn [kind val use_float];
      first [ apply mul_complex_r in Hw | apply div_complex_r in Hw
            | apply mul_Frac_float in Hw | apply div_Frac_float in Hw ];
      destruct w; try discriminate Hw; split; reflexivity.
Qed.

Lemma mul_div_representation_witness :
  __mul__ (mkExtNum REAL (PFrac (2 # 1)) false)
    (OExt (mkExtNum COMPLEX (PComplex 1 2) false))
  = Ok (mkExtNum REAL (PComplex 2 4) false) /\
  wf (mkExtNum REAL (PComplex 2 4) false) = false.
Proof.
  split; [reflexivity|].
  apply (proj1 (proj2 (mul_div_representation (mkExtNum REAL (PFrac (2 # 1)) false)
                         (mkExtNum COMPLEX (PComplex 1 2) false)
                         eq_refl eq_refl) eq_refl)
           (mkExtNum REAL (PComplex 2 4) false)); reflexivity.
Defined.

(** ** Sums and differences across kinds *)

Lemma Qnum_Qred_zero (q : Q) : Qnum (Qred q) = 0 <-> Qnum q = 0.
Proof.
  pose proof (Qred_correct q) as H. unfold Qeq in H. split; intro E.
  - rewrite E in H. simpl in H. symmetry in H.
    apply Z.mul_eq_0 in H as [H|H]; [assumption | discriminate].
  - rewrite E in H. simpl in H.
    apply Z.mul_eq_0 in H as [H|H]; [assumption | discriminate].
Qed.

Lemma Qnum_nonzero_eqb (q : Q) : Qnum q <> 0 -> (Qnum q =? 0) = false.
Proof. intro H. now apply Z.eqb_neq. Qed.

Lemma omega_Frac (q : Q) :
  Qnum q <> 0 -> omega (PFrac q) false = Ok (omega_exact q).
Proof.
  intro H. unfold omega. fold zero. cbn [andb is_Real Py.Fraction_ fmap bind].
  now rewrite eq_zero_Frac, Qnum_nonzero_eqb.
Qed.

Lemma Qeq_bool_opp (q : Q) : Qnum q <> 0 -> Qeq_bool q (Qopp q) = false.
Proof.
  intro H. destruct (Qeq_bool q (Qopp q)) eqn:E; [|reflexivity].
  apply Qeq_bool_iff in E. unfold Qeq in E. simpl in E. nia.
Qed.

Section AddSub.

Variable P : Platform.

(** X5. An OMEGA absorbs every finite operand under [+] and [-]: the method
    returns the OMEGA operand itself, also against a coerced foreign number.
    With the finite value on the left the result is the OMEGA again for [+]
    and the OMEGA of the opposite direction for [-], in the mode of the
    finite operand. *)
Theorem omega_absorbs_finite (x : ExtNum) (o : operand) (y : ExtNum) (s : Z) :
  kind x = OMEGA -> _coerce x o = Ok y -> is_finite y = true ->
  _add_sub P x o s = Ok x /\
  (forall q, val x = PFrac q -> Qnum q <> 0 -> use_float y = false ->
             __add__ P y (OExt x) = Ok (omega_exact (Qred q)) /\
             __sub__ P y (OExt x) = Ok (omega_exact (Qred (Qopp q)))).
Proof.
  intros Hx Hc Hy. split.
  - unfold _add_sub. rewrite Hc. cbn [bind]. rewrite Hx.
    unfold is_finite in Hy. destruct (kind y); try discriminate; reflexivity.
  - intros q Hv Hq Hu. unfold __add__, __sub__, _add_sub, _coerce.
    cbn [bind]. rewrite Hx, Hv, Hu.
    assert (M1 : Py.mul (PInt 1) (PFrac q) = Ok (PFrac (Qred q))).
    { unfold Py.mul. cbn [Py.promote bind].
      rewrite (Qred_complete _ q) by ring. reflexivity. }
    assert (M2 : Py.mul (PInt (-1)) (PFrac q) = Ok (PFrac (Qred (Qopp q)))).
    { unfold Py.mul. cbn [Py.promote bind].
      rewrite (Qred_complete _ (Qopp q)) by ring. reflexivity. }
    unfold is_finite in Hy.
    destruct (kind y); try discriminate; cbn [Kind_eqb orb];
      rewrite M1, M2; cbn [bind]; split; apply omega_Frac;
      rewrite Qnum_Qred_zero; simpl; lia.
Qed.

(** X6. [REAL + COMPLEX] and [REAL - COMPLEX], in either order, raise ValueError:
    no branch of [_add_sub] takes a REAL with a COMPLEX, whereas [*] and [/]
    accept the pair. *)
Theorem real_complex_sum_raises (x : ExtNum) (o : operand) (y : ExtNum) (s : Z) :
  _coerce x o = Ok y ->
  (kind x = REAL /\ kind y = COMPLEX) \/ (kind x = COMPLEX /\ kind y = REAL) ->
  _add_sub P x o s = Err ValueError.
Proof.
  intros Hc [[Hx Hy]|[Hx Hy]]; unfold _add_sub; rewrite Hc; cbn [bind];
    rewrite Hx, Hy; reflexivity.
Qed.

(** X7. Two OMEGA values whose directions are equal cancel under [-] to REAL
    zero in the mode of the left operand, whatever the directions are.
    Opposite directions do not cancel under [+]: on a tie of magnitudes the
    left operand wins, so [Ω(q) + Ω(-q)] is [Ω(q)] and [Ω(-q) + Ω(q)] is
    [Ω(-q)]. *)
Theorem omega_cancellation :
  (forall x y : ExtNum,
      kind x = OMEGA -> kind y = OMEGA -> Py.eq (val x) (val y) = true ->
      __sub__ P x (OExt y) = Ok (real_zero (use_float x))) /\
  (forall q : Q,
      Qnum q <> 0 ->
      __add__ P (omega_exact q) (OExt (omega_exact (Qopp q))) = Ok (omega_exact q) /\
      __add__ P (omega_exact (Qopp q)) (OExt (omega_exact q))
      = Ok (omega_exact (Qopp q))).
Proof.
  split.
  - intros x y Hx Hy He. unfold __sub__, _add_sub, _coerce. cbn [bind].
    rewrite Hx, Hy, He. cbn [Kind_eqb orb andb Z.eqb Pos.eqb]. apply real_0.
  - assert (T : forall a b : Q, Qnum a <> 0 -> b = Qopp a \/ a = Qopp b ->
                __add__ P (omega_exact a) (OExt (omega_exact b)) = Ok (omega_exact a)).
    { intros a b Ha Hb. unfold __add__, _add_sub, _coerce, omega_exact.
      cbn [bind kind val use_float Kind_eqb orb].
      assert (E : Py.eq (PFrac a) (PFrac b) = false).
      { cbn [Py.eq Py.real_eq Py.as_Q]. destruct Hb as [->| ->].
        - now apply Qeq_bool_opp.
        - rewrite Qeq_bool_comm. apply Qeq_bool_opp.
          intro Z0. apply Ha. simpl. lia. }
      rewrite E. cbn [andb Py.abs bind Py.cmp Py.as_Q Py.cmp_Q].
      assert (A : Qabs b = Qabs a).
      { destruct Hb as [->| ->]; [apply Qabs_opp_eq | symmetry; apply Qabs_opp_eq]. }
      rewrite A.
      assert (L : Qle_bool (Qabs a) (Qabs a) = true)
        by (apply Qle_bool_iff; apply Qle_refl).
      rewrite L. now apply omega_Frac. }
    intros q Hq. split.
    + apply T; auto.
    + apply T; [simpl; lia | right; destruct q as [n d]; unfold Qopp; simpl; f_equal; lia].
Qed.

End AddSub.

Lemma omega_absorbs_finite_witness :
  _add_sub pinned (omega_exact (3 # 1)) (OVal (PInt 2)) (-1)
  = Ok (omega_exact (3 # 1)).
Proof.
  apply (proj1 (omega_absorbs_finite pinned (omega_exact (3 # 1)) (OVal (PInt 2))
                  (real_exact (2 # 1)) (-1) eq_refl eq_refl eq_refl)).
Defined.

Lemma real_complex_sum_raises_witness :
  _add_sub pinned (real_exact (1 # 1)) (OVal (PComplex 0 2)) 1 = Err ValueError.
Proof.
  apply (real_complex_sum_raises pinned (real_exact (1 # 1)) (OVal (PComplex 0 2))
           (mkExtNum COMPLEX (PComplex 0 2) false) 1).
  - reflexivity.
  - left. split; reflexivity.
Defined.

Lemma omega_cancellation_witness :
  __sub__ pinned (omega_exact (2 # 1)) (OExt (omega_exact (4 # 2)))
  = Ok (real_zero false).
Proof.
  apply (proj1 (omega_cancellation pinned) (omega_exact (2 # 1)) (omega_exact (4 # 2)));
    reflexivity.
Defined.

(** ** Results that would be complex *)

Lemma complex_of_cplx (c : cplx) (im : pyval) (uf : bool) :
  complex (Py.of_cplx c) im uf = Err TypeError.
Proof. destruct uf; reflexivity. Qed.

Lemma cmath1_complex (f : cplx -> result cplx) (v im : pyval) (uf : bool) :
  (l <- cmath1 f v ;; complex l im uf) = (_ <- cmath1 f v ;; Err TypeError).
Proof.
  unfold cmath1. destruct (Py.complex_ v) as [a|]; [|reflexivity]. cbn [bind].
  destruct (f a) as [c|]; [|reflexivity]. cbn [fmap bind]. apply complex_of_cplx.
Qed.

Section ComplexResults.

Variable P : Platform.

(** X8. Wherever a unary function or [**] has a complex result to wrap, it
    hands the Python complex to [ExtNum.complex] as the real part, and
    [float(complex)] (float mode) or [Fraction(complex)] (exact mode) raises
    TypeError.  So [log], [exp] and [sqrt] of a COMPLEX, [log] of a REAL that
    is not positive, [sqrt] of a negative REAL and a COMPLEX raised to a
    non-zero integer never return: they raise the library function's own
    error, or else TypeError. *)
Theorem complex_valued_results_raise (x : ExtNum) :
  (kind x = COMPLEX ->
   log P x = (_ <- cmath1 (cmath_log P) (val x) ;; Err TypeError) /\
   exp P x = (_ <- cmath1 (cmath_exp P) (val x) ;; Err TypeError) /\
   sqrt P x = (_ <- cmath1 (cmath_sqrt P) (val x) ;; Err TypeError) /\
   (forall n : Z, n <> 0 -> is_complex (val x) = true ->
                  __pow__ P x (PInt n)
                  = (_ <- Py.pow_int P (val x) n ;; Err TypeError))) /\
  (kind x = REAL -> Py.cmp Py.OLe (val x) zero = Ok true ->
   log P x = (_ <- cmath1 (cmath_log P) (val x) ;; Err TypeError)) /\
  (kind x = REAL -> Py.cmp Py.OLt (val x) zero = Ok true ->
   sqrt P x = (_ <- cmath1 (cmath_sqrt P) (val x) ;; Err TypeError)).
Proof.
  split; [|split].
  - intro Hk. unfold log, exp, sqrt, __pow__. rewrite Hk.
    repeat split; try apply cmath1_complex.
    intros n Hn Hv. apply Z.eqb_neq in Hn. rewrite Hn.
    destruct (val x) as [| | |re im|]; try discriminate Hv.
    cbn [Py.pow_int]. destruct (complex_pow P (re, im) n) as [c|]; [|reflexivity].
    cbn [fmap bind]. apply complex_of_cplx.
  - intros Hk Hc. unfold log. rewrite Hk, Hc. cbn [bind]. apply cmath1_complex.
  - intros Hk Hc. unfold sqrt. rewrite Hk, Hc. cbn [bind]. apply cmath1_complex.
Qed.

End ComplexResults.

Lemma complex_valued_results_raise_witness :
  log pinned (real_exact (-1 # 1)) = Err TypeError.
Proof.
  apply (proj1 (proj2 (complex_valued_results_raise pinned (real_exact (-1 # 1))))
           eq_refl eq_refl).
Defined.

(** ** The order *)

Section Order.

Variable P : Platform.

(** X9. Every REAL is strictly below every OMEGA, whatever the direction: the
    comparison key puts REAL values in rank 0 and OMEGA values in rank 1, so
    all four operators are decided by the kinds alone. *)
Theorem real_below_omega (x y : ExtNum) (a : pyval) :
  kind x = REAL -> kind y = OMEGA -> Py.abs P (val y) = Ok a ->
  __lt__ P x (OExt y) = Ok true /\ __le__ P x (OExt y) = Ok true /\
  __gt__ P x (OExt y) = Ok false /\ __ge__ P x (OExt y) = Ok false /\
  __lt__ P y (OExt x) = Ok false /\ __le__ P y (OExt x) = Ok false /\
  __gt__ P y (OExt x) = Ok true /\ __ge__ P y (OExt x) = Ok true.
Proof.
  intros Hx Hy Ha.
  assert (L1 : __lt__ P x (OExt y) = Ok true).
  { unfold __lt__, _cmp_key, _coerce. rewrite Hx. cbn [bind].
    rewrite Hy, Ha. reflexivity. }
  assert (L2 : __lt__ P y (OExt x) = Ok false).
  { unfold __lt__, _cmp_key, _coerce. rewrite Hy, Ha. cbn [bind].
    rewrite Hx. reflexivity. }
  assert (E1 : __eq__ x (OExt y) = Ok false).
  { unfold __eq__, _coerce. cbn [bind]. rewrite Hx, Hy. reflexivity. }
  assert (E2 : __eq__ y (OExt x) = Ok false).
  { unfold __eq__, _coerce. cbn [bind]. rewrite Hx, Hy. reflexivity. }
  unfold __gt__, __ge__, __le__. rewrite L1, L2, E1, E2. repeat split.
Qed.

(** X10. Two OMEGA values are ordered by the magnitude of the direction only.
    [Ω(q)] and [Ω(-q)] are different values of equal magnitude: neither is
    below the other, both [<=] are false and both [>] are true. *)
Theorem opposite_omegas (q : Q) :
  Qnum q <> 0 ->
  __eq__ (omega_exact q) (OExt (omega_exact (Qopp q))) = Ok false /\
  __lt__ P (omega_exact q) (OExt (omega_exact (Qopp q))) = Ok false /\
  __lt__ P (omega_exact (Qopp q)) (OExt (omega_exact q)) = Ok false /\
  __le__ P (omega_exact q) (OExt (omega_exact (Qopp q))) = Ok false /\
  __le__ P (omega_exact (Qopp q)) (OExt (omega_exact q)) = Ok false /\
  __gt__ P (omega_exact q) (OExt (omega_exact (Qopp q))) = Ok true /\
  __gt__ P (omega_exact (Qopp q)) (OExt (omega_exact q)) = Ok true.
Proof.
  intro Hq.
  assert (E1 : __eq__ (omega_exact q) (OExt (omega_exact (Qopp q))) = Ok false).
  { unfold __eq__, _coerce, omega_exact. cbn. now rewrite Qeq_bool_opp. }
  assert (E2 : __eq__ (omega_exact (Qopp q)) (OExt (omega_exact q)) = Ok false).
  { unfold __eq__, _coerce, omega_exact. cbn.
    now rewrite Qeq_bool_comm, Qeq_bool_opp. }
  assert (R : Qeq_bool (Qabs q) (Qabs q) = true) by (apply Qeq_bool_iff; reflexivity).
  assert (L1 : __lt__ P (omega_exact q) (OExt (omega_exact (Qopp q))) = Ok false).
  { unfold __lt__, _cmp_key, _coerce, omega_exact, key_lt.
    cbn [kind val bind Py.abs fst snd Z.eqb negb Pos.eqb]. rewrite Qabs_opp_eq.
    cbn [Py.eq Py.real_eq Py.as_Q]. now rewrite R. }
  assert (L2 : __lt__ P (omega_exact (Qopp q)) (OExt (omega_exact q)) = Ok false).
  { unfold __lt__, _cmp_key, _coerce, omega_exact, key_lt.
    cbn [kind val bind Py.abs fst snd Z.eqb negb Pos.eqb]. rewrite Qabs_opp_eq.
    cbn [Py.eq Py.real_eq Py.as_Q]. now rewrite R. }
  unfold __gt__, __le__. rewrite E1, E2. cbn [bind]. rewrite L1, L2.
  repeat split; assumption.
Qed.

(** X11. On exact-mode REAL values the four operators are the order of the
    rationals. *)
Theorem exact_real_order (p q : Q) :
  __lt__ P (real_exact p) (OExt (real_exact q)) = Ok (negb (Qle_bool q p)) /\
  __le__ P (real_exact p) (OExt (real_exact q)) = Ok (Qle_bool p q) /\
  __gt__ P (real_exact p) (OExt (real_exact q)) = Ok (negb (Qle_bool p q)) /\
  __ge__ P (real_exact p) (OExt (real_exact q)) = Ok (Qle_bool q p).
Proof.
  assert (L : __lt__ P (real_exact p) (OExt (real_exact q))
              = Ok (negb (Qle_bool q p))).
  { unfold __lt__, _cmp_key, _coerce, real_exact, key_lt.
    cbn [kind val bind fst snd Z.eqb negb Py.eq Py.real_eq Py.as_Q Py.cmp Py.cmp_Q].
    destruct (Qeq_bool p q) eqn:E; [|reflexivity].
    apply Qeq_bool_iff in E. f_equal. symmetry. apply negb_false_iff.
    apply Qle_bool_iff. rewrite E. apply Qle_refl. }
  assert (E : __le__ P (real_exact p) (OExt (real_exact q)) = Ok (Qle_bool p q)).
  { unfold __le__. rewrite L. unfold __eq__, _coerce, real_exact.
    cbn [kind val bind Kind_eqb andb Py.eq Py.real_eq Py.as_Q].
    unfold Qeq_bool, Qle_bool.
    destruct (Z.eqb_spec (Qnum p * QDen q) (Qnum q * QDen p)) as [H|H]; f_equal.
    - symmetry. apply Z.leb_le. lia.
    - destruct (Z.leb_spec (Qnum q * QDen p) (Qnum p * QDen q));
        destruct (Z.leb_spec (Qnum p * QDen q) (Qnum q * QDen p)); simpl; lia. }
  unfold __gt__, __ge__. rewrite L, E. cbn [fmap bind]. rewrite negb_involutive.
  repeat split.
Qed.

End Order.

Lemma real_below_omega_witness :
  __gt__ pinned (omega_exact (-5 # 1)) (OExt (real_exact (7 # 1))) = Ok true.
Proof.
  apply (real_below_omega pinned (real_exact (7 # 1)) (omega_exact (-5 # 1))
           (PFrac (5 # 1)) eq_refl eq_refl eq_refl).
Defined.

Lemma opposite_omegas_witness :
  __gt__ pinned (omega_exact (5 # 1)) (OExt (omega_exact (-5 # 1))) = Ok true.
Proof.
  apply (opposite_omegas pinned (5 # 1)). discriminate.
Defined.

(** ** Exact arithmetic *)

Lemma returns_exact_Qred (s v : Q) :
  Qeq s v -> returns_exact (Ok (real_exact (Qred s))) v.
Proof.
  intro H. simpl. repeat split. exists (Qred s). repeat split.
  - now rewrite Qred_correct.
  - apply Qred_complete, Qred_correct.
Qed.

Lemma real_Frac (q : Q) : real (PFrac q) false = Ok (real_exact q).
Proof. reflexivity. Qed.

Section ExactArithmetic.

Variable P : Platform.

Lemma exact_arith (p q : Q) :
  returns_exact (__add__ P (real_exact p) (OExt (real_exact q))) (p + q) /\
  returns_exact (__sub__ P (real_exact p) (OExt (real_exact q))) (p - q) /\
  returns_exact (__mul__ (real_exact p) (OExt (real_exact q))) (p * q) /\
  (Qnum q <> 0 ->
   returns_exact (__truediv__ (real_exact p) (OExt (real_exact q))) (p / q)).
Proof.
  split; [|split; [|split]].
  - unfold __add__, _add_sub, _coerce, real_exact.
    cbn [bind kind val use_float Kind_eqb orb Py.mul Py.add Py.promote].
    rewrite real_Frac. apply returns_exact_Qred. rewrite Qred_correct. ring.
  - unfold __sub__, _add_sub, _coerce, real_exact.
    cbn [bind kind val use_float Kind_eqb orb Py.mul Py.add Py.promote].
    rewrite real_Frac. apply returns_exact_Qred. rewrite Qred_correct. ring.
  - unfold __mul__, _coerce, real_exact.
    cbn [bind kind val use_float Kind_eqb orb andb is_finite].
    rewrite !eq_zero_Frac.
    destruct (Z.eqb_spec (Qnum p) 0) as [Hp|Hp];
      [|destruct (Z.eqb_spec (Qnum q) 0) as [Hq|Hq]]; cbn [orb].
    + simpl. repeat split. exists (0 # 1). repeat split.
      unfold Qeq, Qmult. simpl. rewrite Hp. reflexivity.
    + simpl. repeat split. exists (0 # 1). repeat split.
      unfold Qeq, Qmult. simpl. rewrite Hq. lia.
    + cbn [Py.mul Py.promote bind]. now apply returns_exact_Qred.
  - intro Hq. unfold __truediv__, _coerce, real_exact.
    cbn [bind kind val use_float Kind_eqb orb andb is_finite].
    rewrite eq_zero_Frac, (Qnum_nonzero_eqb q Hq).
    cbn [Py.div Py.promote bind]. rewrite (Qnum_nonzero_eqb q Hq).
    now apply returns_exact_Qred.
Qed.

(** X12. In exact mode the four operations on REAL values are the arithmetic of
    the rationals: the result is a REAL in exact mode whose payload is the
    sum, difference, product or quotient in lowest terms, and nothing is
    raised (the divisor being non-zero). *)
Theorem exact_real_arithmetic (p q : Q) :
  returns_exact (__add__ P (real_exact p) (OExt (real_exact q))) (p + q) /\
  returns_exact (__sub__ P (real_exact p) (OExt (real_exact q))) (p - q) /\
  returns_exact (__mul__ (real_exact p) (OExt (real_exact q))) (p * q) /\
  (Qnum q <> 0 ->
   returns_exact (__truediv__ (real_exact p) (OExt (real_exact q))) (p / q)).
Proof. apply exact_arith. Qed.

(** X13. The reflected operations coerce the foreign left operand and keep the
    order of the operands: for an exact-mode REAL [x] holding [p] and a
    foreign [int] or [Fraction] [q], [q + x], [q - x], [q * x] and [q / x]
    are the exact-mode REAL values [q + p], [q - p], [p * q] and [q / p]. *)
Theorem reflected_exact (p : Q) (v : pyval) (q : Q) :
  Py.as_Q v = Some q ->
  returns_exact (__radd__ P (real_exact p) (OVal v)) (q + p) /\
  returns_exact (__rsub__ P (real_exact p) (OVal v)) (q - p) /\
  returns_exact (__rmul__ (real_exact p) (OVal v)) (p * q) /\
  (Qnum p <> 0 -> returns_exact (__rtruediv__ (real_exact p) (OVal v)) (q / p)).
Proof.
  intro Hv.
  assert (C : _coerce (real_exact p) (OVal v) = Ok (real_exact q))
    by (destruct v; try discriminate Hv; injection Hv as <-; reflexivity).
  destruct (exact_arith q p) as (A & S & _ & D).
  destruct (exact_arith p q) as (_ & _ & M & _).
  unfold __radd__, __rsub__, __rmul__, __rtruediv__.
  unfold __mul__ at 1. rewrite C. cbn [bind].
  split; [exact A|]. split; [exact S|]. split; [exact M | exact D].
Qed.

End ExactArithmetic.

Lemma reflected_exact_witness :
  returns_exact (__rsub__ pinned (real_exact (1 # 2)) (OVal (PInt 2))) ((2 # 1) - (1 # 2)).
Proof.
  apply (proj1 (proj2 (reflected_exact pinned (1 # 2) (PInt 2) (2 # 1) eq_refl))).
Defined.

Lemma exact_real_arithmetic_witness :
  returns_exact
    (__truediv__ (real_exact (1 # 2)) (OExt (real_exact (3 # 4)))) ((1 # 2) / (3 # 4)).
Proof.
  apply (proj2 (proj2 (proj2 (exact_real_arithmetic pinned (1 # 2) (3 # 4))))).
  discriminate.
Defined.

(** X14. [safe_div] on two exact numbers (integers or [Fraction]s) never raises:
    it is BOTTOM for [0/0], the OMEGA of the numerator for a zero
    denominator, and the REAL quotient in lowest terms otherwise. *)
Theorem safe_div_exact (a b : pyval) (p q : Q) :
  Py.as_Q a = Some p -> Py.as_Q b = Some q ->
  safe_div (OVal a) (OVal b) false =
  Ok (if Qnum q =? 0 then (if Qnum p =? 0 then bottom else omega_exact p)
      else real_exact (Qred (p / q))).
Proof.
  intros Ha Hb.
  assert (Ra : real a false = Ok (real_exact p))
    by (destruct a; try discriminate; injection Ha as <-; reflexivity).
  assert (Rb : real b false = Ok (real_exact q))
    by (destruct b; try discriminate; injection Hb as <-; reflexivity).
  unfold safe_div. rewrite Ra, Rb. cbn [bind].
  unfold __truediv__, _coerce, real_exact.
  cbn [bind kind val use_float Kind_eqb orb andb is_finite].
  rewrite !eq_zero_Frac.
  destruct (Z.eqb_spec (Qnum q) 0) as [Hq|Hq].
  - destruct (Z.eqb_spec (Qnum p) 0) as [Hp|Hp]; [reflexivity|].
    now apply omega_Frac.
  - cbn [Py.div Py.promote bind]. now rewrite (Qnum_nonzero_eqb q Hq).
Qed.

Lemma safe_div_exact_witness :
  safe_div (OVal (PInt 1)) (OVal (PFrac (2 # 3))) false
  = Ok (real_exact (3 # 2)).
Proof.
  apply (safe_div_exact (PInt 1) (PFrac (2 # 3)) (1 # 1) (2 # 3)); reflexivity.
Defined.

Lemma Qnum_mult (p q : Q) : Qnum p <> 0 -> Qnum q <> 0 -> Qnum (p * q) <> 0.
Proof. intros Hp Hq. simpl. nia. Qed.

Lemma Qnum_div (p q : Q) : Qnum p <> 0 -> Qnum q <> 0 -> Qnum (p / q) <> 0.
Proof.
  intros Hp Hq. unfold Qdiv. apply Qnum_mult; [assumption|].
  destruct q as [[|n|n] d]; simpl in *; [lia | discriminate | discriminate].
Qed.

(** X15. As soon as one operand is an OMEGA and neither is zero, [*] and [/]
    return an OMEGA whose direction is the product or the quotient of the
    payloads: also [REAL / OMEGA] and [OMEGA / OMEGA] are OMEGA values. *)
Theorem omega_product_quotient (kx ky : Kind) (p q : Q) :
  real_or_omega kx = true -> real_or_omega ky = true ->
  kx = OMEGA \/ ky = OMEGA ->
  Qnum p <> 0 -> Qnum q <> 0 ->
  __mul__ (mkExtNum kx (PFrac p) false) (OExt (mkExtNum ky (PFrac q) false))
  = Ok (omega_exact (Qred (p * q))) /\
  __truediv__ (mkExtNum kx (PFrac p) false) (OExt (mkExtNum ky (PFrac q) false))
  = Ok (omega_exact (Qred (p / q))).
Proof.
  intros Hx Hy Hk Hp Hq.
  assert (M : omega (PFrac (Qred (p * q))) false = Ok (omega_exact (Qred (p * q))))
    by (apply omega_Frac; rewrite Qnum_Qred_zero; now apply Qnum_mult).
  assert (D : omega (PFrac (Qred (p / q))) false = Ok (omega_exact (Qred (p / q))))
    by (apply omega_Frac; rewrite Qnum_Qred_zero; now apply Qnum_div).
  unfold __mul__, __truediv__, _coerce.
  cbn [bind kind val use_float]. rewrite !eq_zero_Frac.
  rewrite (Qnum_nonzero_eqb p Hp), (Qnum_nonzero_eqb q Hq).
  cbn [Py.mul Py.div Py.promote bind]. rewrite (Qnum_nonzero_eqb q Hq).
  destruct kx; try discriminate Hx; destruct ky; try discriminate Hy;
    destruct Hk as [Hk|Hk]; try discriminate Hk;
    cbn [Kind_eqb orb andb is_finite kind]; split; assumption.
Qed.

Lemma omega_product_quotient_witness :
  __truediv__ (mkExtNum REAL (PFrac (1 # 1)) false)
    (OExt (mkExtNum OMEGA (PFrac (2 # 1)) false))
  = Ok (omega_exact (1 # 2)).
Proof.
  apply (proj2 (omega_product_quotient REAL OMEGA (1 # 1) (2 # 1)
                  eq_refl eq_refl (or_intror eq_refl)
                  ltac:(discriminate) ltac:(discriminate))).
Defined.

(** ** Negation *)

Lemma opp_opp_float (f : float) : PrimFloat.opp (PrimFloat.opp f) = f.
Proof.
  apply Prim2SF_inj. rewrite !opp_spec.
  destruct (Prim2SF f); simpl; now rewrite ?negb_involutive.
Qed.

Lemma Qopp_opp_eq (q : Q) : Qopp (Qopp q) = q.
Proof. destruct q as [n d]. unfold Qopp. simpl. f_equal. lia. Qed.

Lemma neg_neg (v v' : pyval) :
  Py.neg v = Ok v' -> Py.neg v' = Ok v.
Proof.
  destruct v; simpl; intro H; try discriminate; injection H as <-; simpl.
  - now rewrite Z.opp_involutive.
  - now rewrite Qopp_opp_eq.
  - now rewrite opp_opp_float.
  - now rewrite !opp_opp_float.
Qed.

Lemma exact_nonzero (s : bool) (m : positive) (e : Z) :
  Qeq_bool (0 # 1) (F64.exact s m e) = false.
Proof.
  destruct (Qeq_bool (0 # 1) (F64.exact s m e)) eqn:E; [|reflexivity].
  apply Qeq_bool_iff in E. unfold F64.exact in E.
  destruct e as [|k|k].
  - unfold Qeq in E. simpl in E. destruct s; lia.
  - unfold Qeq in E. simpl in E.
    assert (0 < 2 ^ Zpos k) by (apply Z.pow_pos_nonneg; lia).
    destruct s; nia.
  - rewrite Qred_correct in E. unfold Qeq in E. simpl in E. destruct s; lia.
Qed.

Lemma Q_eq_float_zero_opp (f : float) :
  Py.Q_eq_float (0 # 1) (PrimFloat.opp f) = Py.Q_eq_float (0 # 1) f.
Proof.
  unfold Py.Q_eq_float, F64.to_Q. rewrite opp_spec.
  destruct (Prim2SF f); simpl; try reflexivity.
  now rewrite !exact_nonzero.
Qed.

Lemma eqb_zero_opp (f : float) :
  PrimFloat.eqb (PrimFloat.opp f) 0 = PrimFloat.eqb f 0.
Proof.
  rewrite !FloatAxioms.eqb_spec, opp_spec.
  change (Prim2SF 0) with (S754_zero false).
  destruct (Prim2SF f) as [s|s| |s m e]; try destruct s; reflexivity.
Qed.

Lemma eq_zero_neg (v v' : pyval) :
  Py.neg v = Ok v' -> Py.eq v' zero = Py.eq v zero.
Proof.
  destruct v; cbn [Py.neg]; intro H; try discriminate; injection H as <-.
  - rewrite !eq_zero_Int.
    destruct (Z.eqb_spec z 0), (Z.eqb_spec (- z) 0); try reflexivity; exfalso; lia.
  - rewrite !eq_zero_Frac. simpl.
    destruct (Z.eqb_spec (Qnum q) 0), (Z.eqb_spec (- Qnum q) 0);
      try reflexivity; exfalso; lia.
  - unfold zero. cbn [Py.eq Py.real_eq Py.as_Q]. apply Q_eq_float_zero_opp.
  - unfold zero. cbn [Py.eq Py.real_eq Py.as_Q].
    now rewrite eqb_zero_opp, Q_eq_float_zero_opp.
Qed.

(** X16. Unary minus is an involution on well-formed values: negating twice
    returns the operand itself, with its kind, payload and mode (BOTTOM is
    sent to the BOTTOM that [ExtNum.bottom()] builds). *)
Theorem neg_involutive (x : ExtNum) :
  wf x = true ->
  (y <- __neg__ x ;; __neg__ y) = Ok (if Kind_eqb (kind x) BOTTOM then bottom else x).
Proof.
  destruct x as [k v uf]. unfold wf. cbn [kind val use_float]. intro Hx.
  destruct k; cbn [Kind_eqb].
  - (* REAL *)
    unfold __neg__ at 1. cbn [kind val use_float].
    destruct (Py.neg v) as [v'|] eqn:E; [|destruct v; discriminate].
    cbn [bind]. unfold __neg__. cbn [kind val use_float].
    now rewrite (neg_neg _ _ E).
  - unfold __neg__ at 1. cbn [kind val use_float].
    destruct (Py.neg v) as [v'|] eqn:E; [|destruct v; discriminate].
    cbn [bind]. unfold __neg__. cbn [kind val use_float].
    now rewrite (neg_neg _ _ E).
  - (* OMEGA *)
    unfold __neg__ at 1. cbn [kind val use_float].
    destruct (Py.neg v) as [v'|] eqn:E; [|destruct v; discriminate].
    cbn [bind].
    assert (Z1 : Py.eq v zero = false).
    { destruct v; try discriminate Hx;
        try (apply andb_prop in Hx as (_ & Hx)); now apply negb_true_iff in Hx. }
    assert (Z2 : Py.eq v' zero = false) by (now rewrite (eq_zero_neg _ _ E)).
    assert (W : forall a, Py.eq a zero = false ->
                match a with
                | PFrac _ => uf = false
                | PFloat _ => uf = true
                | PComplex _ _ => True
                | _ => False
                end -> omega a uf = Ok (mkExtNum OMEGA a uf)).
    { intros a Za Ha. unfold omega. fold zero.
      destruct a; try contradiction; try subst uf; try destruct uf; cbn -[Py.eq];
        try change (Py.of_cplx (re, im)) with (PComplex re im);
        now rewrite Za. }
    rewrite (W v' Z2).
    + cbn [bind]. unfold __neg__. cbn [kind val use_float].
      rewrite (neg_neg _ _ E). cbn [bind]. apply (W v Z1).
      destruct v; try discriminate Hx; try exact I;
        apply andb_prop in Hx as (Hx & _); now destruct uf.
    + destruct v; try discriminate Hx; simpl in E; injection E as <-; try exact I;
        apply andb_prop in Hx as (Hx & _); now destruct uf.
  - reflexivity.
Qed.

Lemma neg_involutive_witness :
  (y <- __neg__ (omega_exact (3 # 2)) ;; __neg__ y) = Ok (omega_exact (3 # 2)).
Proof. apply (neg_involutive (omega_exact (3 # 2))). reflexivity. Defined.

(** ** Sign and magnitude *)

Section SignAbs.

Variable P : Platform.

(** X17. [x.sign() * x.abs() == x] for every exact-mode REAL and every
    exact-mode OMEGA with a rational direction: nothing is raised and the
    product compares equal to the operand. *)
Theorem sign_times_abs (k : Kind) (q : Q) :
  k = REAL \/ (k = OMEGA /\ Qnum q <> 0) ->
  (s <- sign (mkExtNum k (PFrac q) false) ;;
   a <- abs P (mkExtNum k (PFrac q) false) ;;
   m <- __mul__ s (OExt a) ;;
   __eq__ m (OExt (mkExtNum k (PFrac q) false))) = Ok true.
Proof.
  intro Hk.
  assert (C : Py.cmp Py.OGt (PFrac q) zero = Ok (0 <? Qnum q)).
  { unfold zero. cbn [Py.cmp Py.as_Q Py.cmp_Q]. f_equal. unfold Qle_bool. simpl.
    rewrite Z.mul_1_r. destruct (Z.leb_spec (Qnum q) 0), (Z.ltb_spec 0 (Qnum q));
      try reflexivity; exfalso; lia. }
  assert (A : forall s : Z, (s = 1 /\ 0 < Qnum q) \/ (s = -1 /\ Qnum q < 0) ->
              Qeq_bool (Qred (Qmult (s # 1) (Qabs q))) q = true).
  { intros s Hs. apply Qeq_bool_iff. rewrite Qred_correct.
    destruct q as [n d]. unfold Qeq. simpl in *.
    destruct Hs as [[-> H]|[-> H]]; [rewrite Z.abs_eq by lia | rewrite Z.abs_neq by lia];
      lia. }
  assert (N : forall s : Z, s <> 0 -> Qnum q <> 0 ->
              Qnum (Qred (Qmult (s # 1) (Qabs q))) <> 0).
  { intros s Hs Hq. rewrite Qnum_Qred_zero. apply Qnum_mult; [exact Hs|].
    destruct q as [n d]. simpl in *. lia. }
  destruct Hk as [->|[-> Hq]].
  - unfold sign, abs. cbn [kind val use_float Py.abs bind]. rewrite eq_zero_Frac, C.
    rewrite real_Frac. cbn [bind].
    destruct (Z.eqb_spec (Qnum q) 0) as [Hq|Hq].
    + rewrite real_0. cbn [bind]. unfold __mul__, _coerce, real_zero.
      cbn [bind kind val use_float Kind_eqb orb andb is_finite].
      rewrite eq_zero_Frac. cbn. rewrite Hq. reflexivity.
    + cbn [bind].
      assert (Hs : real (PInt (if 0 <? Qnum q then 1 else -1)) false
                   = Ok (real_exact ((if 0 <? Qnum q then 1 else -1) # 1)))
        by (now destruct (0 <? Qnum q)).
      rewrite Hs. cbn [bind]. unfold __mul__, _coerce, real_exact.
      cbn [bind kind val use_float Kind_eqb orb andb is_finite].
      rewrite !eq_zero_Frac.
      assert (Z1 : (Qnum ((if 0 <? Qnum q then 1 else -1) # 1) =? 0) = false)
        by (now destruct (0 <? Qnum q)).
      assert (Z2 : (Qnum (Qabs q) =? 0) = false)
        by (apply Z.eqb_neq; destruct q as [n d]; simpl in *; lia).
      rewrite Z1, Z2. cbn [orb Py.mul Py.promote bind].
      unfold __eq__, _coerce. cbn [bind kind val Kind_eqb andb Py.eq Py.real_eq Py.as_Q].
      f_equal. apply A. destruct (Z.ltb_spec 0 (Qnum q)); [left | right]; lia.
  - unfold sign, abs. cbn [kind val use_float Py.abs bind]. rewrite C.
    cbn [bind].
    assert (Hs : real (PInt (if 0 <? Qnum q then 1 else -1)) false
                 = Ok (real_exact ((if 0 <? Qnum q then 1 else -1) # 1)))
      by (now destruct (0 <? Qnum q)).
    rewrite Hs. cbn [bind].
    rewrite (omega_Frac (Qabs q)) by (destruct q as [n d]; simpl in *; lia).
    cbn [bind]. unfold __mul__, _coerce, real_exact, omega_exact.
    cbn [bind kind val use_float Kind_eqb orb andb is_finite].
    rewrite !eq_zero_Frac.
    assert (Z1 : (Qnum ((if 0 <? Qnum q then 1 else -1) # 1) =? 0) = false)
      by (now destruct (0 <? Qnum q)).
    rewrite Z1. cbn [orb Py.mul Py.promote bind].
    rewrite omega_Frac by (apply N; [now destruct (0 <? Qnum q) | exact Hq]).
    cbn [bind]. unfold __eq__, _coerce, omega_exact.
    cbn [bind kind val Kind_eqb andb Py.eq Py.real_eq Py.as_Q].
    f_equal. apply A. destruct (Z.ltb_spec 0 (Qnum q)); [left | right]; lia.
Qed.

End SignAbs.

Lemma sign_times_abs_witness :
  (s <- sign (mkExtNum REAL (PFrac (-3 # 4)) false) ;;
   a <- abs pinned (mkExtNum REAL (PFrac (-3 # 4)) false) ;;
   m <- __mul__ s (OExt a) ;;
   __eq__ m (OExt (mkExtNum REAL (PFrac (-3 # 4)) false))) = Ok true.
Proof. apply (sign_times_abs pinned REAL (-3 # 4)). now left. Defined.

(** ** Truth value and printing *)

Lemma eqb_zero_Q (f : float) :
  Py.Q_eq_float (0 # 1) f = PrimFloat.eqb f 0.
Proof.
  unfold Py.Q_eq_float, F64.to_Q. rewrite FloatAxioms.eqb_spec.
  change (Prim2SF 0) with (S754_zero false).
  destruct (Prim2SF f) as [s|s| |s m e]; try destruct s; try reflexivity;
    apply exact_nonzero.
Qed.

Lemma truth_nonzero (v : pyval) :
  v <> PNone -> Py.truth v = negb (Py.eq v zero).
Proof.
  destruct v as [z|q|f|re im|]; intro H; try congruence.
  - now rewrite eq_zero_Int.
  - now rewrite eq_zero_Frac.
  - unfold zero. cbn [Py.truth Py.eq Py.real_eq Py.as_Q]. now rewrite eqb_zero_Q.
  - unfold zero. cbn [Py.truth Py.eq Py.real_eq Py.as_Q]. rewrite eqb_zero_Q.
    now destruct (PrimFloat.eqb re 0), (PrimFloat.eqb im 0).
Qed.

(** X18. The truth value of a well-formed value: false exactly on BOTTOM and on
    a REAL or COMPLEX whose payload equals zero; every OMEGA is true. *)
Theorem bool_false_on_bottom_and_zero (x : ExtNum) :
  wf x = true -> __bool__ x = negb (is_undefined x || finite_zero x).
Proof.
  destruct x as [k v uf]. unfold wf, __bool__, is_undefined, finite_zero, is_finite.
  cbn [kind val use_float]. intro Hx.
  destruct k; cbn [Kind_eqb orb andb]; try reflexivity;
    apply truth_nonzero; destruct v; discriminate.
Qed.

Lemma bool_false_on_bottom_and_zero_witness :
  __bool__ (mkExtNum COMPLEX (PComplex 0 (-0)) true) = false.
Proof.
  apply (bool_false_on_bottom_and_zero (mkExtNum COMPLEX (PComplex 0 (-0)) true)).
  reflexivity.
Defined.

Section Printing.

Variable P : Platform.

(** X19. What [repr] prints for an exact-mode REAL is read back by [Fraction] as
    the payload, as long as [str] prints the numerator and the denominator;
    beyond the limit on the digits of an [int], [repr] raises ValueError.
    An exact-mode OMEGA prints the same text inside [Ω(...)], and raises where
    the REAL does.  A COMPLEX whose imaginary part is zero prints its real
    part only, as the float-mode REAL of that double does. *)
Theorem repr_text (q : Q) (re im : float) (uf : bool) :
  (printable q = true ->
   (s <- __repr__ P (real_exact q) ;; Lit.Fraction_of_string s) = Ok (Qred q)) /\
  (printable q = false -> __repr__ P (real_exact q) = Err ValueError) /\
  __repr__ P (omega_exact q)
  = fmap (fun s => ("Ω(" ++ s ++ ")")%string) (__repr__ P (real_exact q)) /\
  (PrimFloat.eqb im 0 = true ->
   __repr__ P (mkExtNum COMPLEX (PComplex re im) uf)
   = __repr__ P (mkExtNum REAL (PFloat re) true)).
Proof.
  split; [|split; [|split]].
  - intro Hp. destruct (Fraction_of_str q Hp) as (s & Hs & Hf).
    unfold __repr__, real_exact. cbn [kind val Py.str]. rewrite Hs. exact Hf.
  - intro Hp. unfold __repr__, real_exact. cbn [kind val Py.str].
    now apply str_Fraction_long.
  - reflexivity.
  - intro H. unfold __repr__. cbn [kind val bind Py.imag_part Py.real_part].
    unfold zero. cbn [Py.eq Py.real_eq Py.as_Q]. now rewrite eqb_zero_Q, H.
Qed.

End Printing.

Lemma repr_text_witness :
  (s <- __repr__ pinned (real_exact (-7 # 2)) ;; Lit.Fraction_of_string s)
  = Ok (-7 # 2).
Proof.
  apply (proj1 (repr_text pinned (-7 # 2) 2 0 false)). reflexivity.
Defined.

(** ** Decoding *)

(** X20. What [from_json] raises and what it skips: a record without ["kind"],
    or whose kind is no member of [Kind], raises KeyError; a BOTTOM record
    is decoded whatever else it holds; any other kind without ["val"] raises
    KeyError. *)
Theorem from_json_key_errors (fields : list (string * json)) :
  (lookup "kind" fields = None -> from_json (JObj fields) = Err KeyError) /\
  (forall s, lookup "kind" fields = Some (JStr s) ->
             Kind_of_name s = Err KeyError ->
             from_json (JObj fields) = Err KeyError) /\
  (lookup "kind" fields = Some (JStr "BOTTOM") ->
   from_json (JObj fields) = Ok bottom) /\
  (forall s k, lookup "kind" fields = Some (JStr s) -> Kind_of_name s = Ok k ->
               k <> BOTTOM -> lookup "val" fields = None ->
               from_json (JObj fields) = Err KeyError).
Proof.
  unfold from_json, getitem. repeat split.
  - intros ->. reflexivity.
  - intros s -> H. cbn [bind]. now rewrite H.
  - intros ->. reflexivity.
  - intros s k -> Hk Hb ->. cbn [bind]. rewrite Hk. cbn [bind].
    destruct k; try reflexivity. congruence.
Qed.

Lemma from_json_key_errors_witness :
  from_json (JObj [("kind"%string, JStr "REAL"); ("use_float"%string, JBool true)])
  = Err KeyError.
Proof.
  apply (proj2 (proj2 (proj2 (from_json_key_errors
           [("kind"%string, JStr "REAL"); ("use_float"%string, JBool true)])))
           "REAL"%string REAL); reflexivity || discriminate.
Defined.

(** X21. [from_json] builds REAL and OMEGA values without the constructors: an
    OMEGA record whose ["val"] reads as zero is decoded into an OMEGA with a
    zero direction, which breaks the data model and which [omega] refuses to
    build from the same number. *)
Theorem from_json_skips_guard (uf : bool) (s : string) (v : pyval) :
  json_number uf (JStr s) = Ok v -> Py.eq v zero = true ->
  from_json (record "OMEGA" uf s) = Ok (mkExtNum OMEGA v uf) /\
  wf (mkExtNum OMEGA v uf) = false /\
  omega v uf = Err ValueError.
Proof.
  intros Hv Hz. split; [|split].
  - unfold from_json, record, getitem.
    cbn [lookup String.eqb Ascii.eqb Bool.eqb bind Kind_of_name truthy].
    rewrite Hv. reflexivity.
  - unfold wf. cbn [kind val use_float]. rewrite Hz.
    destruct v; try reflexivity; now rewrite andb_false_r.
  - now apply omega_zero.
Qed.

Lemma from_json_skips_guard_witness :
  from_json (record "OMEGA" false "0/7")
  = Ok (mkExtNum OMEGA (PFrac (0 # 1)) false).
Proof.
  apply (proj1 (from_json_skips_guard false "0/7" (PFrac (0 # 1)) eq_refl eq_refl)).
Defined.

(** X22. In float mode the round trip through the record comes down to the
    round trip of doubles through [repr] and [float]: where [float(repr(f))]
    is [f], a REAL, an OMEGA with a double direction and a COMPLEX are
    decoded from their encoding as themselves. *)
Theorem roundtrip_float (P : Platform) (f g : float) :
  reads_back P f ->
  roundtrip P (mkExtNum REAL (PFloat f) true) = Ok (mkExtNum REAL (PFloat f) true) /\
  roundtrip P (mkExtNum OMEGA (PFloat f) true) = Ok (mkExtNum OMEGA (PFloat f) true) /\
  (reads_back P g ->
   roundtrip P (mkExtNum COMPLEX (PComplex f g) true)
   = Ok (mkExtNum COMPLEX (PComplex f g) true)).
Proof.
  unfold reads_back. intro Hf. repeat split.
  - unfold roundtrip, to_json, from_json. simpl.
    unfold json_number, json_float. now rewrite Hf.
  - unfold roundtrip, to_json, from_json. simpl.
    unfold json_number, json_float. now rewrite Hf.
  - intro Hg. unfold roundtrip, to_json, from_json. simpl.
    unfold json_number, json_float. now rewrite Hf, Hg.
Qed.

Lemma roundtrip_float_witness :
  roundtrip pinned (mkExtNum OMEGA (PFloat 3) true)
  = Ok (mkExtNum OMEGA (PFloat 3) true).
Proof.
  apply (proj1 (proj2 (roundtrip_float pinned 3 0 eq_refl))).
Defined.

(** ** Foreign operands *)

(** X23. [_coerce] passes an [ExtNum] through, wraps a foreign real number as a
    REAL and a foreign complex number as a COMPLEX, both well formed and in
    the mode of [self], and raises TypeError on anything else; an [int] or a
    [Fraction] met by an exact-mode value is always accepted. *)
Theorem coerce_foreign (self : ExtNum) (v : pyval) :
  (forall x, _coerce self (OExt x) = Ok x) /\
  (forall y, _coerce self (OVal v) = Ok y ->
             wf y = true /\ use_float y = use_float self /\
             kind y = (if is_Real v then REAL else COMPLEX)) /\
  (is_Complex v = false -> _coerce self (OVal v) = Err TypeError) /\
  (forall q, Py.as_Q v = Some q -> use_float self = false ->
             _coerce self (OVal v) = Ok (real_exact q)).
Proof.
  split; [reflexivity|]. split; [|split].
  - intros y H. unfold _coerce in H. destruct (is_Real v).
    + pose proof (real_wf _ _ _ H) as W. apply real_Ok_inv in H. tauto.
    + destruct (is_Complex v); [|discriminate].
      apply bind_Ok_inv in H as (re & _ & H). apply bind_Ok_inv in H as (im & _ & H).
      pose proof (complex_wf _ _ _ _ H) as W. apply complex_Ok_inv in H. tauto.
  - intro H. unfold _coerce. destruct v; try discriminate H. reflexivity.
  - intros q Hq Hu. unfold _coerce. rewrite Hu.
    destruct v; try discriminate Hq; injection Hq as <-; reflexivity.
Qed.

Lemma coerce_foreign_witness :
  _coerce (real_exact (1 # 1)) (OVal (PInt 5)) = Ok (real_exact (5 # 1)).
Proof.
  apply (proj2 (proj2 (proj2 (coerce_foreign (real_exact (1 # 1)) (PInt 5))))
           (5 # 1)); reflexivity.
Defined.

(** ** Doubles that are not finite *)

(** X24. A NaN or an infinity is refused by the exact-mode constructors
    ([Fraction] raises ValueError on a NaN and OverflowError on an infinity)
    and accepted by the float-mode ones, also as the direction of an
    OMEGA. *)
Theorem non_finite_payload (f : float) :
  Prim2SF f = S754_nan \/ (exists s, Prim2SF f = S754_infinity s) ->
  real (PFloat f) false
  = Err (match Prim2SF f with S754_nan => ValueError | _ => OverflowError end) /\
  omega (PFloat f) false
  = Err (match Prim2SF f with S754_nan => ValueError | _ => OverflowError end) /\
  real (PFloat f) true = Ok (mkExtNum REAL (PFloat f) true) /\
  omega (PFloat f) true = Ok (mkExtNum OMEGA (PFloat f) true).
Proof.
  intro H.
  assert (Q : F64.to_Q f
              = Err (match Prim2SF f with S754_nan => ValueError | _ => OverflowError end)).
  { unfold F64.to_Q. destruct H as [H|[s H]]; now rewrite H. }
  repeat split.
  - unfold real. cbn [Py.Fraction_ fmap bind]. now rewrite Q.
  - unfold omega. cbn [andb is_Real Py.Fraction_ fmap bind]. now rewrite Q.
  - unfold omega. fold zero. cbn [andb is_Real Py.float_ fmap bind].
    unfold zero. cbn [Py.eq Py.real_eq Py.as_Q]. unfold Py.Q_eq_float.
    now rewrite Q.
Qed.

Lemma non_finite_payload_witness :
  omega (PFloat nan) true = Ok (mkExtNum OMEGA (PFloat nan) true).
Proof.
  apply (proj2 (proj2 (proj2 (non_finite_payload nan (or_introl eq_refl))))).
Defined.

(** ** Integer powers of an exact REAL *)

Lemma to_pos_pow (a k : positive) : Z.to_pos (Zpos a ^ Zpos k) = (a ^ k)%positive.
Proof. now rewrite <- Pos2Z.inj_pow. Qed.

Section Powers.

Variable P : Platform.

(** X25. An exact-mode REAL raised to an integer: the power of the rational for
    a non-zero exponent (also a negative one, the base being non-zero),
    REAL one for a non-zero base and exponent 0, BOTTOM for [0 ** 0], and
    ZeroDivisionError, not an OMEGA, for zero raised to a negative
    exponent. *)
Theorem pow_exact (p : Q) (n : Z) :
  (n = 0 ->
   __pow__ P (real_exact p) (PInt n)
   = Ok (if Qnum p =? 0 then bottom else real_exact (1 # 1))) /\
  (n <> 0 -> (0 < n \/ Qnum p <> 0) ->
   exists r, __pow__ P (real_exact p) (PInt n) = Ok (real_exact r) /\
             Qeq r (Qpower p n)) /\
  (n < 0 -> Qnum p = 0 ->
   __pow__ P (real_exact p) (PInt n) = Err ZeroDivisionError).
Proof.
  split; [|split].
  - intros ->. unfold __pow__, real_exact. cbn [kind val use_float Z.eqb].
    rewrite eq_zero_Frac. now destruct (Qnum p =? 0).
  - intros Hn Hd. unfold __pow__, real_exact. cbn [kind val use_float].
    apply Z.eqb_neq in Hn as Hn'. rewrite Hn'. cbn [Py.pow_int]. unfold Py.Q_pow.
    destruct p as [a b]. cbn [Qnum Qden].
    destruct n as [|k|k]; [congruence| |].
    + cbn [Z.leb Z.compare fmap bind]. eexists. split; [reflexivity|].
      rewrite to_pos_pow. symmetry. apply Qpower_decomp_pos.
    + cbn [Z.leb Z.compare Z.opp].
      destruct a as [|a|a].
      * destruct Hd as [Hd|Hd]; [discriminate Hd | cbn in Hd; congruence].
      * cbn [Z.ltb Z.compare fmap bind]. eexists. split; [reflexivity|].
        rewrite to_pos_pow. symmetry. apply Qpower_decomp_neg_pos.
      * cbn [Z.ltb Z.compare Z.eqb fmap bind Z.opp]. eexists. split; [reflexivity|].
        rewrite to_pos_pow. symmetry. apply Qpower_decomp_neg_neg.
  - intros Hn Hp. unfold __pow__, real_exact. cbn [kind val use_float].
    assert (Hn' : (n =? 0) = false) by (apply Z.eqb_neq; lia).
    rewrite Hn'. cbn [Py.pow_int]. unfold Py.Q_pow. rewrite Hp.
    destruct n as [|k|k]; try lia. reflexivity.
Qed.

End Powers.

Lemma pow_exact_witness :
  __pow__ pinned (real_exact (0 # 1)) (PInt (-1)) = Err ZeroDivisionError.
Proof.
  apply (proj2 (proj2 (pow_exact pinned (0 # 1) (-1)))); reflexivity.
Defined.

(** ** Equality and hashing within one mode *)

Lemma SFeqb_sym (x y : spec_float) : SFeqb x y = SFeqb y x.
Proof.
  unfold SFeqb, SFcompare.
  destruct x as [s|s| |s m e], y as [s'|s'| |s' m' e']; try reflexivity;
    try (destruct s, s'; reflexivity).
  destruct s, s'; try reflexivity;
    rewrite (Z.compare_antisym e e'); destruct (e ?= e')%Z; simpl; try reflexivity;
    change (Pos.compare_cont Eq m' m) with (Pos.compare m' m);
    change (Pos.compare_cont Eq m m') with (Pos.compare m m');
    rewrite (Pos.compare_antisym m m'); destruct (m ?= m')%positive; reflexivity.
Qed.

Lemma float_eqb_sym (x y : float) : PrimFloat.eqb x y = PrimFloat.eqb y x.
Proof. rewrite !FloatAxioms.eqb_spec. apply SFeqb_sym. Qed.

Lemma real_eq_sym (a b : pyval) : Py.real_eq a b = Py.real_eq b a.
Proof.
  destruct a, b; cbn [Py.real_eq Py.as_Q]; try reflexivity;
    try apply Qeq_bool_comm; apply float_eqb_sym.
Qed.

Lemma Py_eq_sym (a b : pyval) : Py.eq a b = Py.eq b a.
Proof.
  destruct a, b; cbn [Py.eq]; try reflexivity; try apply real_eq_sym;
    try (f_equal; apply real_eq_sym).
  f_equal; apply float_eqb_sym.
Qed.

(** X26. [==] between two [ExtNum] values is symmetric, and it holds between a
    well-formed value and itself unless the payload holds a NaN. *)
Theorem eq_symmetric (x y : ExtNum) :
  __eq__ x (OExt y) = __eq__ y (OExt x) /\
  (Py.eq (val x) (val x) = true -> __eq__ x (OExt x) = Ok true).
Proof.
  split.
  - unfold __eq__, _coerce. cbn [bind]. rewrite (Py_eq_sym (val x) (val y)).
    destruct (kind x), (kind y); reflexivity.
  - intro H. unfold __eq__, _coerce. cbn [bind]. rewrite H, Kind_eqb_refl.
    now destruct (Kind_eqb (kind x) BOTTOM).
Qed.

Lemma eq_symmetric_witness :
  __eq__ (real_exact (1 # 2)) (OExt (real_exact (1 # 2))) = Ok true.
Proof. apply (proj2 (eq_symmetric (real_exact (1 # 2)) bottom)). reflexivity. Defined.



(** ** Constructors and kind helpers *)

(** X28. What the four constructors return satisfies the data model, and the
    kind helpers tell the three families apart: [real] and [complex] build
    finite values without a subscript, [omega] builds an infinite value whose
    subscript is its non-zero direction, [bottom] is the undefined value; and
    every value is exactly one of finite, infinite and undefined. *)
Theorem constructors_and_helpers (v w : pyval) (uf : bool) (x : ExtNum) :
  (forall r, real v uf = Ok r ->
             wf r = true /\ is_finite r = true /\ subscript r = PNone) /\
  (forall r, complex v w uf = Ok r ->
             wf r = true /\ is_finite r = true /\ subscript r = PNone) /\
  (forall r, omega v uf = Ok r ->
             wf r = true /\ is_infinite r = true /\
             subscript r = val r /\ Py.eq (subscript r) zero = false) /\
  (wf bottom = true /\ is_undefined bottom = true /\ subscript bottom = PNone) /\
  (is_finite x = negb (is_infinite x || is_undefined x) /\
   (is_infinite x && is_undefined x) = false).
Proof.
  split; [|split; [|split; [|split]]].
  - intros r H. pose proof (real_wf _ _ _ H) as W.
    apply real_Ok_inv in H as (K & _). unfold is_finite, subscript. now rewrite K.
  - intros r H. pose proof (complex_wf _ _ _ _ H) as W.
    apply complex_Ok_inv in H as (K & _). unfold is_finite, subscript. now rewrite K.
  - intros r H. pose proof (omega_wf _ _ _ H) as W.
    apply omega_Ok_inv in H as (K & _ & Z). unfold is_infinite, subscript.
    now rewrite K.
  - repeat split.
  - unfold is_finite, is_infinite, is_undefined. now destruct (kind x).
Qed.

Lemma constructors_and_helpers_witness :
  subscript (omega_exact (2 # 1)) = val (omega_exact (2 # 1)).
Proof.
  apply (proj1 (proj2 (proj2 (constructors_and_helpers (PInt 2) PNone false bottom)))
           (omega_exact (2 # 1)) eq_refl).
Defined.

(** ** A computed direction that is zero *)

Section ZeroDirection.

Variable P : Platform.

(** X29. When the direction computed for an OMEGA result is zero, the guard of
    [omega] fires inside the operation: [exp], [sin] and [cos] of an OMEGA
    with a real direction, and a product or quotient with an OMEGA that
    underflows, raise ValueError.  [log] alone tests the magnitude first and
    returns BOTTOM. *)
Theorem zero_direction_raises (x : ExtNum) (lv : pyval) :
  kind x = OMEGA -> Py.eq lv zero = true ->
  (is_complex (val x) = false ->
   (math1 (math_exp P) (val x) = Ok lv -> exp P x = Err ValueError) /\
   (math1 (math_sin P) (val x) = Ok lv -> sin P x = Err ValueError) /\
   (math1 (math_cos P) (val x) = Ok lv -> cos P x = Err ValueError) /\
   (forall a n, Py.abs P (val x) = Ok a -> math1 (math_log P) a = Ok lv ->
                Py.abs P lv = Ok n -> Py.eq n zero = true ->
                log P x = Ok bottom)) /\
  (forall y, kind y <> BOTTOM ->
             Py.eq (val x) zero = false -> Py.eq (val y) zero = false ->
             (Py.mul (val x) (val y) = Ok lv -> __mul__ x (OExt y) = Err ValueError) /\
             (Py.div (val x) (val y) = Ok lv ->
              __truediv__ x (OExt y) = Err ValueError)).
Proof.
  intros Hk Hz. split.
  - intro Hc. unfold exp, sin, cos, log. rewrite Hk, Hc. repeat split.
    + intros ->. cbn [bind]. now apply omega_zero.
    + intros ->. cbn [bind]. now apply omega_zero.
    + intros ->. cbn [bind]. now apply omega_zero.
    + intros a n Ha Hl Hn He. rewrite Ha. cbn [bind]. rewrite Hl. cbn [bind].
      rewrite Hn. cbn [bind]. now rewrite He.
  - intros y Hy Zx Zy. apply Kind_eqb_neq in Hy.
    unfold __mul__, __truediv__, _coerce. cbn [bind].
    rewrite Hk, Hy, Zx, Zy. cbn [Kind_eqb orb andb is_finite].
    rewrite !andb_false_r. cbn [orb].
    split; intros ->; cbn [bind]; now apply omega_zero.
Qed.

End ZeroDirection.

Lemma zero_direction_raises_witness :
  __mul__ (mkExtNum OMEGA (PFloat 0x1p-600) true)
    (OExt (mkExtNum OMEGA (PFloat 0x1p-600) true)) = Err ValueError.
Proof.
  apply (proj2 (zero_direction_raises pinned (mkExtNum OMEGA (PFloat 0x1p-600) true)
                  (PFloat 0) eq_refl eq_refl)
           (mkExtNum OMEGA (PFloat 0x1p-600) true));
    reflexivity || discriminate.
Defined.

(** ** Functions of the magnitude *)

Section Magnitude.

Variable P : Platform.

(** X30. [abs] and [sqrt] of an OMEGA with a real direction read the magnitude
    of the direction only: [Ω(d)] and [Ω(-d)] have the same [abs] and the
    same [sqrt], in both modes, so that [sqrt] of an OMEGA never takes the
    complex branch that [sqrt] of a negative REAL takes. *)
Theorem omega_magnitude_only (uf : bool) :
  (forall q : Q,
      abs P (mkExtNum OMEGA (PFrac (Qopp q)) uf) = abs P (mkExtNum OMEGA (PFrac q) uf) /\
      sqrt P (mkExtNum OMEGA (PFrac (Qopp q)) uf)
      = sqrt P (mkExtNum OMEGA (PFrac q) uf)) /\
  (forall f : float,
      abs P (mkExtNum OMEGA (PFloat (PrimFloat.opp f)) uf)
      = abs P (mkExtNum OMEGA (PFloat f) uf) /\
      sqrt P (mkExtNum OMEGA (PFloat (PrimFloat.opp f)) uf)
      = sqrt P (mkExtNum OMEGA (PFloat f) uf)).
Proof.
  split.
  - intro q. unfold abs, sqrt. cbn [kind val use_float is_complex Py.abs bind].
    now rewrite Qabs_opp_eq.
  - intro f. unfold abs, sqrt. cbn [kind val use_float is_complex Py.abs bind].
    now rewrite abs_opp_float.
Qed.

End Magnitude.
